(** * A shallow embedding of the hsm hierarchical state-machine engine (hsm.h)

    The engine keeps a stack of active states (index 0 is the root), an event
    queue and a deferred queue.  The embedding follows hsm.h function by
    function.  Recursion that C++ leaves unbounded (the PushState /
    CreateAndPushInitialState cascade, the ProcessQueueEvent /
    ProcessDeferredEvent replay, the drain loop of process_event) takes a
    fuel argument; running out of it is a separate outcome, never a result. *)

From Stdlib Require Import List Arith Bool Lia.
Import ListNotations.

(** ** Type identities

    [TypeInfoStorage] wraps a [std::type_info]; all that the engine does with
    it is [operator==].  A type identity is modelled as a number. *)

Definition TypeInfoStorage := nat.
Definition StateTypeInfo := TypeInfoStorage.
Definition EventTypeInfo := TypeInfoStorage.

Definition TypeInfo_eq (lhs rhs : TypeInfoStorage) : bool := Nat.eqb lhs rhs.

(** ** Transition

    [state_factory_] is a pointer to the singleton factory of the target
    state type; factories compare by [GetType], so the pointer is modelled as
    the optional target type ([None] is the null pointer). *)

Inductive TransitionType := Sibling | No | End.

Record Transition := mkTransition {
  transition_type_ : TransitionType;
  state_factory_ : option StateTypeInfo
}.

Definition IsSibling (t : Transition) : bool :=
  match transition_type_ t with Sibling => true | _ => false end.

Definition IsNo (t : Transition) : bool :=
  match transition_type_ t with No => true | _ => false end.

Definition SiblingTransition (stateFactory : StateTypeInfo) : Transition :=
  mkTransition Sibling (Some stateFactory).

Definition NoTransition : Transition := mkTransition No None.

Definition EndTransition : Transition := mkTransition End None.

(** ** States and events

    A state instance carries its dynamic type and the [stack_depth_] written
    by [InitState].  ([state_machine_] always points to the one machine that
    created the instance and is left out.)  An event the caller passes in is
    a kind and a payload; the engine works on clones, each clone being one
    allocation identified by [clone_id]. *)

Record State := mkState {
  GetType : StateTypeInfo;
  stack_depth_ : nat
}.

Record Event := mkEvent {
  event_type : EventTypeInfo;
  event_data : nat
}.

Record EventPtr := mkEventPtr {
  clone_id : nat;
  pointee : Event
}.

(** The body of a [react] overload ends in one of the four results the State
    interface offers; [unimplemented] stands for a claimed kind without an
    overload of its own, for which [state_base::react(const Event&)] is
    selected. *)

Inductive Reaction :=
| finish
| discard
| transit (TargetState : StateTypeInfo)
| defer
| unimplemented.

(** What a user of the library supplies: per state type its [reactions]
    type list, its [react] overloads (selected by the claimed kind that
    matched), its [InitType] (equal to the state type itself when none was
    given), and the two configuration macros. *)

Record Program := mkProgram {
  reactions : StateTypeInfo -> list EventTypeInfo;
  react : StateTypeInfo -> EventTypeInfo -> Event -> Reaction;
  InitType : StateTypeInfo -> StateTypeInfo;
  ABORT_WHEN_AN_EVENT_NOT_HANDLE : bool;
  ABORT_WHEN_RECEIVE_UNKNOWN_EVENT : bool
}.

(** What the engine does that can be seen from outside, in the order it
    happens: the calls of the overridable [on_enter] and [on_exit], the calls
    of [Dispatch] on a state and of a [react] overload, and the two
    diagnostics written to [std::cout].  The machine keeps them in [trace],
    which no engine function reads. *)

Inductive Obs :=
| on_enter (s : State)
| on_exit (s : State)
| Dispatched (depth : nat) (s : State) (e : EventPtr)
| Reacted (s : State) (claimed : EventTypeInfo) (e : EventPtr)
| Diag_event_not_handled (e : EventPtr)
| Diag_unknown_event.

(** ** The machine *)

Record StateMachine := mkStateMachine {
  owner_ : option nat;
  initial_transition_ : Transition;
  state_stack_ : list State;
  event_queue_ : list EventPtr;
  deferred_queue_ : list EventPtr;
  next_clone : nat;
  trace : list Obs
}.

(** [StateMachine()] : null owner, default transition, empty containers. *)
Definition new_StateMachine : StateMachine :=
  mkStateMachine None NoTransition [] [] [] 0 [].

Definition set_owner (o : option nat) (m : StateMachine) : StateMachine :=
  mkStateMachine o (initial_transition_ m) (state_stack_ m) (event_queue_ m)
                 (deferred_queue_ m) (next_clone m) (trace m).

Definition set_initial_transition (t : Transition) (m : StateMachine) : StateMachine :=
  mkStateMachine (owner_ m) t (state_stack_ m) (event_queue_ m)
                 (deferred_queue_ m) (next_clone m) (trace m).

Definition set_state_stack (s : list State) (m : StateMachine) : StateMachine :=
  mkStateMachine (owner_ m) (initial_transition_ m) s (event_queue_ m)
                 (deferred_queue_ m) (next_clone m) (trace m).

Definition set_event_queue (q : list EventPtr) (m : StateMachine) : StateMachine :=
  mkStateMachine (owner_ m) (initial_transition_ m) (state_stack_ m) q
                 (deferred_queue_ m) (next_clone m) (trace m).

Definition set_deferred_queue (q : list EventPtr) (m : StateMachine) : StateMachine :=
  mkStateMachine (owner_ m) (initial_transition_ m) (state_stack_ m) (event_queue_ m)
                 q (next_clone m) (trace m).

Definition set_next_clone (n : nat) (m : StateMachine) : StateMachine :=
  mkStateMachine (owner_ m) (initial_transition_ m) (state_stack_ m) (event_queue_ m)
                 (deferred_queue_ m) n (trace m).

Definition log (os : list Obs) (m : StateMachine) : StateMachine :=
  mkStateMachine (owner_ m) (initial_transition_ m) (state_stack_ m) (event_queue_ m)
                 (deferred_queue_ m) (next_clone m) (trace m ++ os).

(** ** Outcomes

    [AssertFail] is a failed [hsm_assert] (the process aborts), [Undefined]
    is undefined behaviour of the standard library ([front] or [pop_front] of
    an empty [std::list]); both keep the machine as it was at that point.
    [OutOfFuel] means the model was not given enough fuel. *)

Inductive Outcome (A : Type) :=
| Ok (a : A)
| AssertFail (m : StateMachine)
| Undefined (m : StateMachine)
| OutOfFuel.

Arguments Ok {A} a.
Arguments AssertFail {A} m.
Arguments Undefined {A} m.
Arguments OutOfFuel {A}.

Definition bind {A B : Type} (x : Outcome A) (f : A -> Outcome B) : Outcome B :=
  match x with
  | Ok a => f a
  | AssertFail m => AssertFail m
  | Undefined m => Undefined m
  | OutOfFuel => OutOfFuel
  end.

Notation "x <- c ;; k" := (bind c (fun x => k))
  (at level 61, c at next level, right associativity).

(** ** Creating and destroying states *)

(** [new TargetState()] : the [State()] constructor zeroes the depth. *)
Definition AllocateState (TargetState : StateTypeInfo) : State :=
  mkState TargetState 0.

Definition InitState (state : State) (stack_depth : nat) : State :=
  mkState (GetType state) stack_depth.

(** [transition.state_factory()] asserts that the factory pointer is set. *)
Definition CreateState (transition : Transition) (stack_depth : nat)
    (m : StateMachine) : Outcome State :=
  match state_factory_ transition with
  | None => AssertFail m
  | Some TargetState => Ok (InitState (AllocateState TargetState) stack_depth)
  end.

Definition InvokeOnEnter (state : State) (m : StateMachine) : StateMachine :=
  log [on_enter state] m.

Definition InvokeOnExit (state : State) (m : StateMachine) : StateMachine :=
  log [on_exit state] m.

Definition HasInitializeState (P : Program) (state : State) : bool :=
  negb (TypeInfo_eq (GetType state) (InitType P (GetType state))).

Definition GetInitializeState (P : Program) (state : State) : Transition :=
  SiblingTransition (InitType P (GetType state)).

(** ** Stack operations *)

Fixpoint PushState (P : Program) (fuel : nat) (state : State) (m : StateMachine)
    {struct fuel} : Outcome StateMachine :=
  match fuel with
  | 0 => OutOfFuel
  | S fuel' =>
      let m1 := set_state_stack (state_stack_ m ++ [state]) m in
      let m2 := InvokeOnEnter state m1 in
      if HasInitializeState P state
      then CreateAndPushInitialState P fuel' (GetInitializeState P state) m2
      else Ok m2
  end
with CreateAndPushInitialState (P : Program) (fuel : nat) (transition : Transition)
    (m : StateMachine) {struct fuel} : Outcome StateMachine :=
  match fuel with
  | 0 => OutOfFuel
  | S fuel' =>
      initial_state <- CreateState transition 0 m ;;
      PushState P fuel' initial_state m
  end.

Definition PopState (m : StateMachine) : Outcome StateMachine :=
  match state_stack_ m with
  | [] => AssertFail m
  | first :: _ =>
      let state := last (state_stack_ m) first in
      let m1 := InvokeOnExit state m in
      Ok (set_state_stack (removelast (state_stack_ m1)) m1)
  end.

(** The loop [for (int i = size - 1; i >= depth; --i) PopState();] runs
    [size - depth] times. *)
Fixpoint PopState_times (n : nat) (m : StateMachine) : Outcome StateMachine :=
  match n with
  | 0 => Ok m
  | S n' => m1 <- PopState m ;; PopState_times n' m1
  end.

Definition PopStateAtDepth (depth : nat) (m : StateMachine) : Outcome StateMachine :=
  if depth <? length (state_stack_ m)
  then PopState_times (length (state_stack_ m) - depth) m
  else AssertFail m.

Definition initialize (P : Program) (fuel : nat) (InitialStateType : StateTypeInfo)
    (owner : option nat) (m : StateMachine) : Outcome StateMachine :=
  if negb (IsNo (initial_transition_ m)) then AssertFail m
  else match state_stack_ m with
       | _ :: _ => AssertFail m
       | [] =>
           let m1 := set_initial_transition (SiblingTransition InitialStateType) m in
           let m2 := set_owner owner m1 in
           CreateAndPushInitialState P fuel (initial_transition_ m2) m2
       end.

Definition stop (m : StateMachine) : Outcome StateMachine :=
  m1 <- (if 0 <? length (state_stack_ m) then PopStateAtDepth 0 m else Ok m) ;;
  match state_stack_ m1 with
  | [] => Ok m1
  | _ :: _ => AssertFail m1
  end.

Definition GetStateAtDepth (depth : nat) (m : StateMachine) : Outcome State :=
  match nth_error (state_stack_ m) depth with
  | Some state => Ok state
  | None => AssertFail m
  end.

(** ** Deferral and the react overloads *)

Definition DeferEvent (m : StateMachine) : Outcome StateMachine :=
  match event_queue_ m with
  | [] => AssertFail m
  | front :: _ => Ok (set_deferred_queue (deferred_queue_ m ++ [front]) m)
  end.

(** [State::defer] *)
Definition State_defer (m : StateMachine) : Outcome (Transition * StateMachine) :=
  m1 <- DeferEvent m ;;
  Ok (NoTransition, m1).

(** [static_cast<SelfType*>(s)->react(event)] with the overload chosen for the
    claimed kind [Begin]. *)
Definition call_react (P : Program) (s : State) (Begin : EventTypeInfo) (e : EventPtr)
    (m : StateMachine) : Outcome (Transition * StateMachine) :=
  let m1 := log [Reacted s Begin e] m in
  match react P (GetType s) Begin (pointee e) with
  | finish => Ok (NoTransition, m1)
  | discard => Ok (NoTransition, m1)
  | transit TargetState => Ok (SiblingTransition TargetState, m1)
  | defer => State_defer m1
  | unimplemented =>
      let m2 := log [Diag_event_not_handled e] m1 in
      if ABORT_WHEN_AN_EVENT_NOT_HANDLE P then AssertFail m2
      else Ok (NoTransition, m2)
  end.

(** [DispatchImpl<Begin, End, Sequence>] : [Begin] is the front of [Sequence].
    The specialisation [DispatchImpl<End, End, Sequence>] is the one chosen
    whenever the front type is the type [End], the last of the list.  (The
    front of an empty type list does not exist; the list is never empty.) *)
Fixpoint DispatchImpl (P : Program) (End : EventTypeInfo) (Sequence : list EventTypeInfo)
    (s : State) (e : EventPtr) (m : StateMachine) : Outcome (Transition * StateMachine) :=
  match Sequence with
  | [] => Ok (EndTransition, m)
  | Begin :: list =>
      if TypeInfo_eq Begin End
      then
        if TypeInfo_eq End (event_type (pointee e))
        then call_react P s End e m
        else Ok (EndTransition, m)
      else
        if TypeInfo_eq Begin (event_type (pointee e))
        then call_react P s Begin e m
        else DispatchImpl P End list s e m
  end.

(** [state_base::Dispatch] : [first] and [last] of the reactions list. *)
Definition Dispatch (P : Program) (s : State) (e : EventPtr) (m : StateMachine)
    : Outcome (Transition * StateMachine) :=
  let list := reactions P (GetType s) in
  let last_ := last list 0 in
  DispatchImpl P last_ list s e m.

(** ** Event processing *)

Fixpoint ProcessQueueEvent_from (P : Program) (fuel : nat) (depth : nat)
    (m : StateMachine) {struct fuel} : Outcome StateMachine :=
  match fuel with
  | 0 => OutOfFuel
  | S fuel' =>
      if depth <? length (state_stack_ m)
      then
        state <- GetStateAtDepth depth m ;;
        match event_queue_ m with
        | [] => Undefined m
        | front :: _ =>
            r <- Dispatch P state front (log [Dispatched depth state front] m) ;;
            let (transition, m1) := r in
            match transition_type_ transition with
            | End => ProcessQueueEvent_from P fuel' (S depth) m1
            | No => Ok m1
            | Sibling =>
                m2 <- PopStateAtDepth depth m1 ;;
                target_state <- CreateState transition depth m2 ;;
                m3 <- PushState P fuel' target_state m2 ;;
                ProcessDeferredEvent_from P fuel' (length (deferred_queue_ m3)) m3
            end
        end
      else
        let m1 := log [Diag_unknown_event] m in
        if ABORT_WHEN_RECEIVE_UNKNOWN_EVENT P then AssertFail m1 else Ok m1
  end
with ProcessDeferredEvent_from (P : Program) (fuel : nat) (i : nat)
    (m : StateMachine) {struct fuel} : Outcome StateMachine :=
  match fuel with
  | 0 => OutOfFuel
  | S fuel' =>
      match i with
      | 0 => Ok m
      | S i' =>
          match deferred_queue_ m with
          | [] => Undefined m
          | front :: _ =>
              let m1 := set_event_queue (front :: event_queue_ m) m in
              m2 <- ProcessQueueEvent_from P fuel' 0 m1 ;;
              match deferred_queue_ m2 with
              | [] => Undefined m2
              | _ :: deferred' =>
                  let m3 := set_deferred_queue deferred' m2 in
                  match event_queue_ m3 with
                  | [] => Undefined m3
                  | _ :: events' =>
                      ProcessDeferredEvent_from P fuel' i' (set_event_queue events' m3)
                  end
              end
          end
      end
  end.

Definition ProcessQueueEvent (P : Program) (fuel : nat) (m : StateMachine)
    : Outcome StateMachine :=
  ProcessQueueEvent_from P fuel 0 m.

Definition ProcessDeferredEvent (P : Program) (fuel : nat) (m : StateMachine)
    : Outcome StateMachine :=
  ProcessDeferredEvent_from P fuel (length (deferred_queue_ m)) m.

(** [event_base<SelfType>::Clone] : a new allocation holding a copy. *)
Definition Clone (event : Event) (m : StateMachine) : EventPtr * StateMachine :=
  (mkEventPtr (next_clone m) event, set_next_clone (S (next_clone m)) m).

Fixpoint drain (P : Program) (fuel : nat) (m : StateMachine) : Outcome StateMachine :=
  match fuel with
  | 0 => OutOfFuel
  | S fuel' =>
      match event_queue_ m with
      | [] => Ok m
      | _ :: _ =>
          m1 <- ProcessQueueEvent P fuel' m ;;
          match event_queue_ m1 with
          | [] => Undefined m1
          | _ :: events' => drain P fuel' (set_event_queue events' m1)
          end
      end
  end.

Definition process_event (P : Program) (fuel : nat) (event : Event)
    (m : StateMachine) : Outcome StateMachine :=
  let (clone, m1) := Clone event m in
  drain P fuel (set_event_queue (event_queue_ m1 ++ [clone]) m1).

(** ** The program of test.cc *)

Module Test.

Definition First : StateTypeInfo := 1.
Definition Second : StateTypeInfo := 2.
Definition Third : StateTypeInfo := 3.

Definition event_base_type : EventTypeInfo := 0.
Definition event_open : EventTypeInfo := 1.
Definition event_close : EventTypeInfo := 2.

Definition test_reactions (s : StateTypeInfo) : list EventTypeInfo :=
  match s with
  | 2 => [event_open; event_close]
  | 3 => [event_close]
  | _ => [event_base_type]
  end.

Definition test_react (s : StateTypeInfo) (claimed : EventTypeInfo) (e : Event) : Reaction :=
  match s, claimed with
  | 2, 1 => transit Third
  | 2, 2 => defer
  | 3, 2 => finish
  | _, _ => unimplemented
  end.

Definition test_InitType (s : StateTypeInfo) : StateTypeInfo :=
  match s with
  | 1 => Second
  | _ => s
  end.

Definition program : Program :=
  mkProgram test_reactions test_react test_InitType true true.

Definition main (fuel : nat) : Outcome StateMachine :=
  m1 <- initialize program fuel First (Some 7) new_StateMachine ;;
  m2 <- process_event program fuel (mkEvent event_close 0) m1 ;;
  m3 <- process_event program fuel (mkEvent event_open 0) m2 ;;
  stop m3.

End Test.

(** ** Two further programs

    [Replay] : a deferred event that itself causes a transition when it is
    replayed.  [S] defers [close] and goes to [T] on [open]; [T] goes to [U]
    on [close]; [U] handles [close] without a transition. *)

Module Replay.

Definition S_ : StateTypeInfo := 1.
Definition T : StateTypeInfo := 2.
Definition U : StateTypeInfo := 3.

Definition open : EventTypeInfo := 1.
Definition close : EventTypeInfo := 2.

Definition replay_reactions (s : StateTypeInfo) : list EventTypeInfo :=
  match s with
  | 1 => [open; close]
  | _ => [close]
  end.

Definition replay_react (s : StateTypeInfo) (claimed : EventTypeInfo) (e : Event) : Reaction :=
  match s, claimed with
  | 1, 1 => transit T
  | 1, 2 => defer
  | 2, 2 => transit U
  | 3, 2 => finish
  | _, _ => unimplemented
  end.

Definition program : Program :=
  mkProgram replay_reactions replay_react (fun s => s) true true.

(** [initialize<S>(); process_event(close); process_event(close);
    process_event(open);] *)
Definition run (fuel : nat) : Outcome StateMachine :=
  m1 <- initialize program fuel S_ None new_StateMachine ;;
  m2 <- process_event program fuel (mkEvent close 10) m1 ;;
  m3 <- process_event program fuel (mkEvent close 20) m2 ;;
  process_event program fuel (mkEvent open 0) m3.

End Replay.

(** [Loop] : as [Replay], but [T] answers [close] by a transition to [T]. *)

Module Loop.

Definition S_ : StateTypeInfo := 1.
Definition T : StateTypeInfo := 2.

Definition open : EventTypeInfo := 1.
Definition close : EventTypeInfo := 2.

Definition loop_reactions (s : StateTypeInfo) : list EventTypeInfo :=
  match s with
  | 1 => [open; close]
  | _ => [close]
  end.

Definition loop_react (s : StateTypeInfo) (claimed : EventTypeInfo) (e : Event) : Reaction :=
  match s, claimed with
  | 1, 1 => transit T
  | 1, 2 => defer
  | 2, 2 => transit T
  | _, _ => unimplemented
  end.

Definition program : Program :=
  mkProgram loop_reactions loop_react (fun s => s) true true.

(** The machine after [initialize<S>(); process_event(close);]. *)
Definition deferred_close : EventPtr := mkEventPtr 0 (mkEvent close 0).

Definition before_open : StateMachine :=
  mkStateMachine None (SiblingTransition S_) [mkState S_ 0] [] [deferred_close] 1
    [on_enter (mkState S_ 0);
     Dispatched 0 (mkState S_ 0) deferred_close;
     Reacted (mkState S_ 0) close deferred_close].

(** The machine while the replay of [deferred_close] in state [T] goes
    round: only the event queue and the trace grow. *)
Definition spinning (events : list EventPtr) (tr : list Obs) : StateMachine :=
  mkStateMachine None (SiblingTransition S_) [mkState T 0] events [deferred_close] 2 tr.

End Loop.

(** [Repeated] : a reactions list that names its last kind twice,
    [hsm_vector<close, open, close>]. *)

Module Repeated.

Definition open : EventTypeInfo := 1.
Definition close : EventTypeInfo := 2.

Definition program : Program :=
  mkProgram (fun _ => [close; open; close]) (fun _ _ _ => finish) (fun s => s) true true.

End Repeated.

(** ** Notions used in the statements *)

(** The initial substates entered below a state of type [k], following
    [InitType] until a type that names itself; [None] when that takes more
    than [n] steps. *)
Fixpoint cascade (P : Program) (n : nat) (k : StateTypeInfo) : option (list StateTypeInfo) :=
  match n with
  | 0 => None
  | S n' =>
      if TypeInfo_eq k (InitType P k) then Some []
      else option_map (cons (InitType P k)) (cascade P n' (InitType P k))
  end.

(** The chain of instances a push of [state] adds to the stack. *)
Definition pushed_chain (state : State) (subs : list StateTypeInfo) : list State :=
  state :: map AllocateState subs.

(** The indices [hi-1, hi-2, ..., lo], in that order. *)
Definition indices_down (lo hi : nat) : list nat := rev (seq lo (hi - lo)).

(** [on_exit] of the states of [stack] at the indices [>= depth], highest
    index first. *)
Definition exits_down (stack : list State) (depth : nat) : list Obs :=
  map (fun i => on_exit (nth i stack (mkState 0 0))) (indices_down depth (length stack)).

(** The states of [stack] at the indices [0 .. n-1] being asked for [e], in
    increasing index order. *)
Definition consulted (stack : list State) (e : EventPtr) (n : nat) : list Obs :=
  map (fun i => Dispatched i (nth i stack (mkState 0 0)) e) (seq 0 n).

Definition is_Dispatched (o : Obs) : bool :=
  match o with Dispatched _ _ _ => true | _ => false end.

(** The react overloads that ran: the type of the state and the clone. *)
Fixpoint reacted (tr : list Obs) : list (StateTypeInfo * nat) :=
  match tr with
  | [] => []
  | Reacted s _ e :: rest => (GetType s, clone_id e) :: reacted rest
  | _ :: rest => reacted rest
  end.

(** Every state of the stack records its own index as depth. *)
Definition depth_invariant (m : StateMachine) : bool :=
  forallb (fun p => Nat.eqb (stack_depth_ (snd p)) (fst p))
          (combine (seq 0 (length (state_stack_ m))) (state_stack_ m)).

(** The claimed kind the spec's lookup selects: the first of the list equal
    to the kind of the event. *)
Definition first_claimed (P : Program) (s : State) (e : EventPtr) : option EventTypeInfo :=
  find (fun claimed => TypeInfo_eq claimed (event_type (pointee e))) (reactions P (GetType s)).

(** The kinds the search of [DispatchImpl] compares with the kind of the
    event: the type list up to and including the first occurrence of the type
    [End].  [searched] is that for the reactions of a state, [End] being the
    last kind of the list; a state finds a kind when the kind is among
    them.  In a list that names no kind twice they are the whole list. *)
Fixpoint compared (End : EventTypeInfo) (Sequence : list EventTypeInfo) : list EventTypeInfo :=
  match Sequence with
  | [] => []
  | Begin :: rest =>
      if TypeInfo_eq Begin End then [Begin] else Begin :: compared End rest
  end.

Definition searched (P : Program) (s : State) : list EventTypeInfo :=
  compared (last (reactions P (GetType s)) 0) (reactions P (GetType s)).

(** [m'] is the machine some calls of process_event and stop later, each of
    which returned. *)
Inductive after_calls (P : Program) (m : StateMachine) : StateMachine -> Prop :=
| after_none : after_calls P m m
| after_process_event (m1 m2 : StateMachine) (fuel : nat) (event : Event) :
    after_calls P m m1 -> process_event P fuel event m1 = Ok m2 -> after_calls P m m2
| after_stop (m1 m2 : StateMachine) :
    after_calls P m m1 -> stop m1 = Ok m2 -> after_calls P m m2.

(** The dispatch of [e] over [stack] is answered at depth [k], by the react
    overload of [state] for [claimed], with a plain NoTransition (finish or
    discard: nothing deferred, no assertion). *)
Definition answered_quietly (P : Program) (stack : list State) (e : EventPtr)
    (k : nat) (state : State) (claimed : EventTypeInfo) : Prop :=
  nth_error stack k = Some state /\
  (forall j sj mj, j < k -> nth_error stack j = Some sj ->
     Dispatch P sj e mj = Ok (EndTransition, mj)) /\
  (forall mk, Dispatch P state e mk = Ok (NoTransition, log [Reacted state claimed e] mk)).

(** Every event of the list is answered quietly over [stack]; the second
    list is what the dispatches log, event after event. *)
Inductive quiet_replay (P : Program) (stack : list State) : list EventPtr -> list Obs -> Prop :=
| quiet_nil : quiet_replay P stack [] []
| quiet_cons (e : EventPtr) (k : nat) (state : State) (claimed : EventTypeInfo)
    (rest : list EventPtr) (l : list Obs) :
    answered_quietly P stack e k state claimed ->
    quiet_replay P stack rest l ->
    quiet_replay P stack (e :: rest)
      (consulted stack e (S k) ++ [Reacted state claimed e] ++ l).

(** ** The rest of the public surface *)

(** [StateMachine::owner()] *)
Definition owner (m : StateMachine) : option nat := owner_ m.

(** [~StateMachine() { stop(); }] *)
Definition StateMachine_destructor (m : StateMachine) : Outcome StateMachine := stop m.

(** [Cycle] : two states that name each other as initial substate,
    [state_base<A, B>] and [state_base<B, A>]. *)

Module Cycle.

Definition A : StateTypeInfo := 1.
Definition B : StateTypeInfo := 2.

Definition cycle_InitType (s : StateTypeInfo) : StateTypeInfo :=
  match s with
  | 1 => B
  | 2 => A
  | _ => s
  end.

Definition program : Program :=
  mkProgram (fun _ => [0]) (fun _ _ _ => unimplemented) cycle_InitType true true.

End Cycle.

(** [Bare] : a state that lists [ping] in its reactions and has no react
    overload of its own, built with ABORT_WHEN_AN_EVENT_NOT_HANDLE off. *)

Module Bare.

Definition ping : EventTypeInfo := 1.

Definition program : Program :=
  mkProgram (fun _ => [ping]) (fun _ _ _ => unimplemented) (fun s => s) false true.

End Bare.

(** ** Notions used in the further properties *)

Definition is_lifecycle (o : Obs) : bool :=
  match o with
  | on_enter _ => true
  | on_exit _ => true
  | _ => false
  end.

(** What a [Dispatch] may log: the react overload and its diagnostic. *)
Definition is_react_obs (o : Obs) : bool :=
  match o with
  | Reacted _ _ _ => true
  | Diag_event_not_handled _ => true
  | _ => false
  end.

Definition State_eqb (a b : State) : bool :=
  Nat.eqb (GetType a) (GetType b) && Nat.eqb (stack_depth_ a) (stack_depth_ b).

(** The states entered and not yet exited, read off a trace: [on_enter]
    adds the state at the leaf end, [on_exit] must name the state at the leaf
    end and removes it.  [None] when an [on_exit] names another state or
    comes with nothing entered. *)
Definition lifecycle_step (entered : option (list State)) (o : Obs) : option (list State) :=
  match entered, o with
  | Some l, on_enter s => Some (l ++ [s])
  | Some l, on_exit s =>
      match l with
      | [] => None
      | first :: _ => if State_eqb (last l first) s then Some (removelast l) else None
      end
  | _, _ => entered
  end.

Definition alive (tr : list Obs) : option (list State) :=
  fold_left lifecycle_step tr (Some []).

(** Every state records depth 0 or its own index. *)
Definition depth_zero_or_index (stack : list State) : Prop :=
  forall i s, nth_error stack i = Some s -> stack_depth_ s = 0 \/ stack_depth_ s = i.

(** The machines a program can bring about: a newly constructed machine and
    what the public calls return. *)
Inductive reachable (P : Program) : StateMachine -> Prop :=
| reach_new : reachable P new_StateMachine
| reach_initialize (m m' : StateMachine) (fuel : nat) (InitialStateType : StateTypeInfo)
    (o : option nat) :
    reachable P m -> initialize P fuel InitialStateType o m = Ok m' -> reachable P m'
| reach_process_event (m m' : StateMachine) (fuel : nat) (event : Event) :
    reachable P m -> process_event P fuel event m = Ok m' -> reachable P m'
| reach_stop (m m' : StateMachine) :
    reachable P m -> stop m = Ok m' -> reachable P m'.

(** * Properties *)

(** ** Records and outcomes *)

Ltac unfold_sets :=
  unfold InvokeOnEnter, InvokeOnExit, log, set_owner, set_initial_transition,
    set_state_stack, set_event_queue, set_deferred_queue, set_next_clone in *.

Ltac machine_eq :=
  unfold_sets; simpl; repeat rewrite <- app_assoc; simpl; try reflexivity.

Lemma log_log (a b : list Obs) (m : StateMachine) :
  log b (log a m) = log (a ++ b) m.
Proof. machine_eq. Qed.

Lemma log_nil (m : StateMachine) : log [] m = m.
Proof. destruct m; unfold log; simpl; rewrite app_nil_r; reflexivity. Qed.

Lemma set_state_stack_same (m : StateMachine) :
  set_state_stack (state_stack_ m) m = m.
Proof. destruct m; reflexivity. Qed.

Lemma TypeInfo_eq_true (a b : TypeInfoStorage) : TypeInfo_eq a b = true <-> a = b.
Proof. apply Nat.eqb_eq. Qed.

Lemma TypeInfo_eq_false (a b : TypeInfoStorage) : TypeInfo_eq a b = false <-> a <> b.
Proof. apply Nat.eqb_neq. Qed.

Lemma bind_OutOfFuel {A B : Type} (x : Outcome A) (k : A -> Outcome B) :
  bind x k <> OutOfFuel -> x <> OutOfFuel.
Proof. intros H Hx. apply H. rewrite Hx. reflexivity. Qed.

(** ** Popping *)

Lemma indices_down_snoc (lo hi : nat) :
  lo <= hi -> indices_down lo (S hi) = hi :: indices_down lo hi.
Proof.
  intro H. unfold indices_down.
  replace (S hi - lo) with (S (hi - lo)) by lia.
  rewrite seq_S, rev_unit. f_equal. lia.
Qed.

Lemma exits_down_snoc (s : list State) (x : State) (depth : nat) :
  depth <= length s ->
  exits_down (s ++ [x]) depth = on_exit x :: exits_down s depth.
Proof.
  intro H. unfold exits_down.
  rewrite length_app, Nat.add_1_r, indices_down_snoc by exact H.
  simpl. f_equal.
  - rewrite app_nth2, Nat.sub_diag by lia. reflexivity.
  - apply map_ext_in. intros i Hi.
    unfold indices_down in Hi. rewrite <- in_rev, in_seq in Hi.
    rewrite app_nth1 by lia. reflexivity.
Qed.

Lemma exits_down_all (s : list State) : exits_down s (length s) = [].
Proof. unfold exits_down, indices_down. rewrite Nat.sub_diag. reflexivity. Qed.



Lemma PopState_snoc (m : StateMachine) (s : list State) (x : State) :
  state_stack_ m = s ++ [x] ->
  PopState m = Ok (set_state_stack s (log [on_exit x] m)).
Proof.
  intro H. unfold PopState.
  destruct (state_stack_ m) as [|a l] eqn:E.
  - destruct s; discriminate.
  - unfold InvokeOnExit. cbn [state_stack_ log].
    rewrite E, H, last_last, removelast_last. reflexivity.
Qed.

Lemma PopState_times_spec (n : nat) :
  forall m : StateMachine,
  n <= length (state_stack_ m) ->
  PopState_times n m =
  Ok (set_state_stack (firstn (length (state_stack_ m) - n) (state_stack_ m))
        (log (exits_down (state_stack_ m) (length (state_stack_ m) - n)) m)).
Proof.
  induction n as [|n IH]; intros m Hn.
  - simpl. rewrite Nat.sub_0_r, firstn_all, exits_down_all, log_nil,
      set_state_stack_same. reflexivity.
  - destruct (state_stack_ m) as [|a l] eqn:E using rev_ind; [simpl in Hn; lia|].
    clear IHl. rewrite length_app in *. simpl in Hn |- *.
    rewrite (PopState_snoc m l a E). simpl.
    rewrite IH by (simpl; lia). simpl.
    replace (length l + 1 - S n) with (length l - n) by lia.
    rewrite firstn_app, exits_down_snoc by lia.
    replace (length l - n - length l) with 0 by lia.
    simpl. rewrite app_nil_r. machine_eq.
Qed.

Lemma PopStateAtDepth_spec (depth : nat) (m : StateMachine) :
  depth < length (state_stack_ m) ->
  PopStateAtDepth depth m =
  Ok (set_state_stack (firstn depth (state_stack_ m))
        (log (exits_down (state_stack_ m) depth) m)).
Proof.
  intro H. unfold PopStateAtDepth.
  rewrite (proj2 (Nat.ltb_lt _ _) H).
  rewrite PopState_times_spec by lia.
  replace (length (state_stack_ m) - (length (state_stack_ m) - depth)) with depth by lia.
  reflexivity.
Qed.

Lemma PopStateAtDepth_out_of_range (depth : nat) (m : StateMachine) :
  length (state_stack_ m) <= depth -> PopStateAtDepth depth m = AssertFail m.
Proof.
  intro H. unfold PopStateAtDepth.
  rewrite (proj2 (Nat.ltb_ge _ _) H). reflexivity.
Qed.

Lemma stop_spec (m : StateMachine) :
  stop m = Ok (set_state_stack [] (log (exits_down (state_stack_ m) 0) m)).
Proof.
  unfold stop. destruct (state_stack_ m) as [|a l] eqn:E.
  - simpl. rewrite E. unfold exits_down, indices_down. simpl.
    rewrite log_nil. destruct m; simpl in *; subst; reflexivity.
  - simpl. rewrite PopStateAtDepth_spec by (rewrite E; simpl; lia).
    simpl. rewrite E. reflexivity.
Qed.

(** The lemmas from here on are about the engine running an arbitrary
    program [P]. *)

Section Engine.

Variable P : Program.

(** ** Pushing *)

Lemma PushState_unfold (fuel : nat) (state : State) (m : StateMachine) :
  PushState P (S fuel) state m =
  if HasInitializeState P state
  then CreateAndPushInitialState P fuel (GetInitializeState P state)
         (InvokeOnEnter state (set_state_stack (state_stack_ m ++ [state]) m))
  else Ok (InvokeOnEnter state (set_state_stack (state_stack_ m ++ [state]) m)).
Proof. reflexivity. Qed.

Lemma CreateAndPushInitialState_unfold (fuel : nat)
    (transition : Transition) (m : StateMachine) :
  CreateAndPushInitialState P (S fuel) transition m =
  (initial_state <- CreateState transition 0 m ;; PushState P fuel initial_state m).
Proof. reflexivity. Qed.

Lemma cascade_fuel (n : nat) (k : StateTypeInfo) (subs : list StateTypeInfo) :
  cascade P n k = Some subs -> 0 < n.
Proof. destruct n; simpl; [discriminate | lia]. Qed.

Lemma PushState_cascade (n : nat) :
  forall (fuel : nat) (state : State) (m : StateMachine) (subs : list StateTypeInfo),
  cascade P n (GetType state) = Some subs ->
  2 * n <= S fuel ->
  PushState P fuel state m =
  Ok (log (map on_enter (pushed_chain state subs))
        (set_state_stack (state_stack_ m ++ pushed_chain state subs) m)).
Proof.
  induction n as [|n IH]; intros fuel state m subs Hc Hf; [discriminate|].
  destruct fuel as [|fuel]; [lia|].
  simpl in Hc. simpl. unfold HasInitializeState.
  destruct (TypeInfo_eq (GetType state) (InitType P (GetType state))) eqn:Heq; simpl.
  - injection Hc as <-. reflexivity.
  - destruct (cascade P n (InitType P (GetType state))) as [rest|] eqn:Hrest;
      [|discriminate].
    injection Hc as <-.
    pose proof (cascade_fuel n _ rest Hrest) as Hn.
    destruct fuel as [|fuel]; [lia|].
    simpl CreateAndPushInitialState. unfold GetInitializeState, CreateState. simpl bind.
    change (InitState (AllocateState (InitType P (GetType state))) 0)
      with (AllocateState (InitType P (GetType state))).
    rewrite (IH fuel (AllocateState (InitType P (GetType state))) _ rest)
      by (simpl; (exact Hrest || lia)).
    f_equal. unfold pushed_chain. machine_eq.
Qed.

(** ** Dispatch to one state *)

(** The search of [DispatchImpl] stops at the first type equal to the last
    of the list: in [hsm_vector<close, open, close>] the claimed [open] is
    never compared. *)
Remark Dispatch_repeated_last_kind :
  Dispatch Repeated.program (mkState 1 0) (mkEventPtr 0 (mkEvent Repeated.open 0))
    new_StateMachine = Ok (EndTransition, new_StateMachine).
Proof. reflexivity. Qed.

Lemma call_react_stack (s : State) (claimed : EventTypeInfo) (e : EventPtr)
    (m m' : StateMachine) (t : Transition) :
  call_react P s claimed e m = Ok (t, m') ->
  state_stack_ m' = state_stack_ m /\ event_queue_ m' = event_queue_ m.
Proof.
  unfold call_react, State_defer, DeferEvent. intro H.
  destruct (react P (GetType s) claimed (pointee e)); simpl in H.
  - injection H as _ <-. split; reflexivity.
  - injection H as _ <-. split; reflexivity.
  - injection H as _ <-. split; reflexivity.
  - destruct (event_queue_ m) eqn:E; simpl in H; [discriminate|].
    injection H as _ <-. simpl. rewrite E. split; reflexivity.
  - destruct (ABORT_WHEN_AN_EVENT_NOT_HANDLE P); [discriminate|].
    injection H as _ <-. split; reflexivity.
Qed.

Lemma call_react_frame (s : State) (claimed : EventTypeInfo) (e : EventPtr)
    (m m' : StateMachine) (t : Transition) :
  call_react P s claimed e m = Ok (t, m') ->
  exists l, trace m' = trace m ++ l /\ existsb is_Dispatched l = false.
Proof.
  unfold call_react, State_defer, DeferEvent. intro H.
  destruct (react P (GetType s) claimed (pointee e)); simpl in H.
  - injection H as _ <-. eexists. simpl. split; reflexivity.
  - injection H as _ <-. eexists. simpl. split; reflexivity.
  - injection H as _ <-. eexists. simpl. split; reflexivity.
  - destruct (event_queue_ m) eqn:E; simpl in H; [discriminate|].
    injection H as _ <-. eexists. simpl. split; reflexivity.
  - destruct (ABORT_WHEN_AN_EVENT_NOT_HANDLE P); [discriminate|].
    injection H as _ <-. eexists. simpl. rewrite <- app_assoc. split; reflexivity.
Qed.

Lemma DispatchImpl_frame (End : EventTypeInfo) (s : State) (e : EventPtr)
    (m m' : StateMachine) (t : Transition) (Sequence : list EventTypeInfo) :
  DispatchImpl P End Sequence s e m = Ok (t, m') ->
  state_stack_ m' = state_stack_ m /\ event_queue_ m' = event_queue_ m /\
  exists l, trace m' = trace m ++ l /\ existsb is_Dispatched l = false.
Proof.
  induction Sequence as [|b rest IH]; simpl; intro H.
  - injection H as _ <-. repeat split. exists []. rewrite app_nil_r. split; reflexivity.
  - assert (Hreact : forall c, call_react P s c e m = Ok (t, m') ->
        state_stack_ m' = state_stack_ m /\ event_queue_ m' = event_queue_ m /\
        exists l, trace m' = trace m ++ l /\ existsb is_Dispatched l = false).
    { intros c Hc. destruct (call_react_stack s c e m m' t Hc) as [Hs Hq].
      destruct (call_react_frame s c e m m' t Hc) as [l [Hl Hd]].
      repeat split; try assumption. exists l. split; assumption. }
    destruct (TypeInfo_eq b End).
    + destruct (TypeInfo_eq End (event_type (pointee e))).
      * apply (Hreact End H).
      * injection H as _ <-. repeat split. exists []. rewrite app_nil_r.
        split; reflexivity.
    + destruct (TypeInfo_eq b (event_type (pointee e))).
      * apply (Hreact b H).
      * apply IH. exact H.
Qed.

Lemma Dispatch_frame (s : State) (e : EventPtr)
    (m m' : StateMachine) (t : Transition) :
  Dispatch P s e m = Ok (t, m') ->
  state_stack_ m' = state_stack_ m /\ event_queue_ m' = event_queue_ m /\
  exists l, trace m' = trace m ++ l /\ existsb is_Dispatched l = false.
Proof. unfold Dispatch. apply DispatchImpl_frame. Qed.

(** ** The dispatch loop *)

Lemma ProcessQueueEvent_from_unfold (fuel depth : nat) (m : StateMachine) :
  ProcessQueueEvent_from P (S fuel) depth m =
  if depth <? length (state_stack_ m)
  then
    state <- GetStateAtDepth depth m ;;
    match event_queue_ m with
    | [] => Undefined m
    | front :: _ =>
        r <- Dispatch P state front (log [Dispatched depth state front] m) ;;
        let (transition, m1) := r in
        match transition_type_ transition with
        | End => ProcessQueueEvent_from P fuel (S depth) m1
        | No => Ok m1
        | Sibling =>
            m2 <- PopStateAtDepth depth m1 ;;
            target_state <- CreateState transition depth m2 ;;
            m3 <- PushState P fuel target_state m2 ;;
            ProcessDeferredEvent_from P fuel (length (deferred_queue_ m3)) m3
        end
    end
  else
    let m1 := log [Diag_unknown_event] m in
    if ABORT_WHEN_RECEIVE_UNKNOWN_EVENT P then AssertFail m1 else Ok m1.
Proof. reflexivity. Qed.

Lemma ProcessDeferredEvent_from_unfold (fuel i : nat) (m : StateMachine) :
  ProcessDeferredEvent_from P (S fuel) i m =
  match i with
  | 0 => Ok m
  | S i' =>
      match deferred_queue_ m with
      | [] => Undefined m
      | front :: _ =>
          let m1 := set_event_queue (front :: event_queue_ m) m in
          m2 <- ProcessQueueEvent_from P fuel 0 m1 ;;
          match deferred_queue_ m2 with
          | [] => Undefined m2
          | _ :: deferred' =>
              let m3 := set_deferred_queue deferred' m2 in
              match event_queue_ m3 with
              | [] => Undefined m3
              | _ :: events' =>
                  ProcessDeferredEvent_from P fuel i' (set_event_queue events' m3)
              end
          end
      end
  end.
Proof. reflexivity. Qed.

Lemma GetStateAtDepth_nth (depth : nat) (m : StateMachine) (state : State) :
  nth_error (state_stack_ m) depth = Some state ->
  GetStateAtDepth depth m = Ok state.
Proof. intro H. unfold GetStateAtDepth. rewrite H. reflexivity. Qed.

Lemma consulted_S (stack : list State) (e : EventPtr) (n : nat) :
  consulted stack e (S n) =
  consulted stack e n ++ [Dispatched n (nth n stack (mkState 0 0)) e].
Proof. unfold consulted. rewrite seq_S, map_app. reflexivity. Qed.

(** While the states asked so far answer [EndTransition], the loop moves on
    to the next depth, having asked the states [0 .. k-1] in that order. *)
Lemma ProcessQueueEvent_scan (front : EventPtr) (q : list EventPtr) (k : nat) :
  forall (fuel : nat) (m : StateMachine),
  event_queue_ m = front :: q ->
  k <= length (state_stack_ m) ->
  (forall j sj mj, j < k -> nth_error (state_stack_ m) j = Some sj ->
     Dispatch P sj front mj = Ok (EndTransition, mj)) ->
  ProcessQueueEvent_from P (k + fuel) 0 m =
  ProcessQueueEvent_from P fuel k (log (consulted (state_stack_ m) front k) m).
Proof.
  induction k as [|k IH]; intros fuel m Hq Hk Hend.
  - simpl. rewrite log_nil. reflexivity.
  - replace (S k + fuel) with (k + S fuel) by lia.
    rewrite IH;
      [ | exact Hq | lia | intros j sj mj Hj Hsj; apply (Hend j sj mj); [lia | exact Hsj] ].
    rewrite ProcessQueueEvent_from_unfold. cbn [state_stack_ log event_queue_].
    rewrite (proj2 (Nat.ltb_lt _ _) Hk).
    assert (Hnth : nth_error (state_stack_ m) k = Some (nth k (state_stack_ m) (mkState 0 0))).
    { apply nth_error_nth'. lia. }
    rewrite (GetStateAtDepth_nth k (log (consulted (state_stack_ m) front k) m) _ Hnth).
    cbn [bind].
    rewrite Hq.
    rewrite (Hend k _ _ (Nat.lt_succ_diag_r k) Hnth). cbn [bind transition_type_ EndTransition].
    rewrite log_log, <- consulted_S. reflexivity.
Qed.

Lemma ProcessQueueEvent_answer (fuel : nat) (m : StateMachine)
    (front : EventPtr) (q : list EventPtr) (k : nat) (state : State)
    (transition : Transition) (m' : StateMachine) :
  event_queue_ m = front :: q ->
  nth_error (state_stack_ m) k = Some state ->
  (forall j sj mj, j < k -> nth_error (state_stack_ m) j = Some sj ->
     Dispatch P sj front mj = Ok (EndTransition, mj)) ->
  Dispatch P state front (log (consulted (state_stack_ m) front (S k)) m)
    = Ok (transition, m') ->
  ProcessQueueEvent P (S k + fuel) m =
  match transition_type_ transition with
  | End => ProcessQueueEvent_from P fuel (S k) m'
  | No => Ok m'
  | Sibling =>
      m2 <- PopStateAtDepth k m' ;;
      target_state <- CreateState transition k m2 ;;
      m3 <- PushState P fuel target_state m2 ;;
      ProcessDeferredEvent P fuel m3
  end.
Proof.
  intros Hq Hnth Hend Hd.
  assert (Hk : k < length (state_stack_ m)).
  { apply nth_error_Some. rewrite Hnth. discriminate. }
  unfold ProcessQueueEvent.
  replace (S k + fuel) with (k + S fuel) by lia.
  rewrite (ProcessQueueEvent_scan front q k (S fuel) m Hq (Nat.lt_le_incl _ _ Hk) Hend).
  rewrite ProcessQueueEvent_from_unfold. cbn [state_stack_ log event_queue_].
  rewrite (proj2 (Nat.ltb_lt _ _) Hk).
  rewrite (GetStateAtDepth_nth k (log (consulted (state_stack_ m) front k) m) _ Hnth).
  cbn [bind]. rewrite Hq.
  rewrite consulted_S, (nth_error_nth _ _ _ Hnth), <- log_log in Hd.
  rewrite Hd. cbn [bind]. reflexivity.
Qed.

Lemma ProcessQueueEvent_unknown (fuel : nat) (m : StateMachine)
    (front : EventPtr) (q : list EventPtr) :
  event_queue_ m = front :: q ->
  (forall state mj, In state (state_stack_ m) ->
     Dispatch P state front mj = Ok (EndTransition, mj)) ->
  ProcessQueueEvent P (length (state_stack_ m) + S fuel) m =
  if ABORT_WHEN_RECEIVE_UNKNOWN_EVENT P
  then AssertFail (log (consulted (state_stack_ m) front (length (state_stack_ m))
                        ++ [Diag_unknown_event]) m)
  else Ok (log (consulted (state_stack_ m) front (length (state_stack_ m))
                ++ [Diag_unknown_event]) m).
Proof.
  intros Hq Hend. unfold ProcessQueueEvent.
  rewrite (ProcessQueueEvent_scan front q (length (state_stack_ m)) (S fuel) m Hq
             (Nat.le_refl _)).
  - rewrite ProcessQueueEvent_from_unfold. cbn [state_stack_ log].
    rewrite Nat.ltb_irrefl. cbv zeta. rewrite log_log. reflexivity.
  - intros j sj mj _ Hsj. apply Hend. apply (nth_error_In _ _ Hsj).
Qed.

(** ** More fuel does not change a result *)

Lemma more_fuel {A : Type} (F : nat -> Outcome A) :
  (forall fuel, F fuel <> OutOfFuel -> F (S fuel) = F fuel) ->
  forall fuel fuel', fuel <= fuel' -> F fuel <> OutOfFuel -> F fuel' = F fuel.
Proof.
  intros Hstep fuel fuel' Hle Hne.
  induction Hle as [|fuel' Hle IH]; [reflexivity|].
  rewrite Hstep; rewrite IH; trivial.
Qed.

Lemma PushState_step (fuel : nat) :
  (forall state m, PushState P fuel state m <> OutOfFuel ->
     PushState P (S fuel) state m = PushState P fuel state m) /\
  (forall transition m, CreateAndPushInitialState P fuel transition m <> OutOfFuel ->
     CreateAndPushInitialState P (S fuel) transition m =
     CreateAndPushInitialState P fuel transition m).
Proof.
  induction fuel as [|fuel [IHp IHc]].
  - split; intros ? ? H; exfalso; apply H; reflexivity.
  - split.
    + intros state m. rewrite (PushState_unfold (S fuel)), (PushState_unfold fuel).
      destruct (HasInitializeState P state); [apply IHc | reflexivity].
    + intros transition m.
      rewrite (CreateAndPushInitialState_unfold (S fuel)),
        (CreateAndPushInitialState_unfold fuel).
      destruct (CreateState transition 0 m); cbn [bind]; try reflexivity.
      apply IHp.
Qed.

Lemma PushState_more_fuel (fuel fuel' : nat) (state : State)
    (m : StateMachine) :
  fuel <= fuel' -> PushState P fuel state m <> OutOfFuel ->
  PushState P fuel' state m = PushState P fuel state m.
Proof.
  apply (more_fuel (fun f => PushState P f state m)).
  intros f. apply (proj1 (PushState_step f)).
Qed.

Lemma ProcessQueueEvent_step (fuel : nat) :
  (forall depth m, ProcessQueueEvent_from P fuel depth m <> OutOfFuel ->
     ProcessQueueEvent_from P (S fuel) depth m = ProcessQueueEvent_from P fuel depth m) /\
  (forall i m, ProcessDeferredEvent_from P fuel i m <> OutOfFuel ->
     ProcessDeferredEvent_from P (S fuel) i m = ProcessDeferredEvent_from P fuel i m).
Proof.
  induction fuel as [|fuel [IHq IHd]].
  - split; intros ? ? H; exfalso; apply H; reflexivity.
  - split.
    + intros depth m.
      rewrite (ProcessQueueEvent_from_unfold (S fuel)),
        (ProcessQueueEvent_from_unfold fuel).
      destruct (depth <? length (state_stack_ m)); [|reflexivity].
      destruct (GetStateAtDepth depth m) as [state| | |]; cbn [bind]; try reflexivity.
      destruct (event_queue_ m) as [|front q]; [reflexivity|].
      destruct (Dispatch P state front (log [Dispatched depth state front] m))
        as [[transition m1]| | |]; cbn [bind]; try reflexivity.
      destruct (transition_type_ transition); [|reflexivity|apply IHq].
      destruct (PopStateAtDepth depth m1) as [m2| | |]; cbn [bind]; try reflexivity.
      destruct (CreateState transition depth m2) as [target| | |]; cbn [bind];
        try reflexivity.
      intro H. pose proof (bind_OutOfFuel _ _ H) as Hp.
      rewrite (proj1 (PushState_step fuel) target m2 Hp).
      destruct (PushState P fuel target m2) as [m3| | |]; cbn [bind] in *;
        try reflexivity.
      apply IHd. exact H.
    + intros i m.
      rewrite (ProcessDeferredEvent_from_unfold (S fuel)),
        (ProcessDeferredEvent_from_unfold fuel).
      destruct i as [|i]; [reflexivity|].
      destruct (deferred_queue_ m) as [|front dq]; [reflexivity|].
      cbv zeta. intro H. pose proof (bind_OutOfFuel _ _ H) as Hq.
      rewrite (IHq _ _ Hq).
      destruct (ProcessQueueEvent_from P fuel 0
                  (set_event_queue (front :: event_queue_ m) m)) as [m2| | |];
        cbn [bind] in *; try reflexivity.
      destruct (deferred_queue_ m2) as [|x dq']; [reflexivity|].
      destruct (event_queue_ (set_deferred_queue dq' m2)) as [|y eq']; [reflexivity|].
      apply IHd. exact H.
Qed.

Lemma ProcessQueueEvent_more_fuel (fuel fuel' : nat) (m : StateMachine) :
  fuel <= fuel' -> ProcessQueueEvent P fuel m <> OutOfFuel ->
  ProcessQueueEvent P fuel' m = ProcessQueueEvent P fuel m.
Proof.
  apply (more_fuel (fun f => ProcessQueueEvent P f m)).
  intros f. apply (proj1 (ProcessQueueEvent_step f)).
Qed.

Lemma drain_step (fuel : nat) :
  forall m, drain P fuel m <> OutOfFuel -> drain P (S fuel) m = drain P fuel m.
Proof.
  induction fuel as [|fuel IH]; intros m H.
  - exfalso. apply H. reflexivity.
  - change (drain P (S (S fuel)) m) with
      (match event_queue_ m with
       | [] => Ok m
       | _ :: _ =>
           m1 <- ProcessQueueEvent P (S fuel) m ;;
           match event_queue_ m1 with
           | [] => Undefined m1
           | _ :: events' => drain P (S fuel) (set_event_queue events' m1)
           end
       end).
    change (drain P (S fuel) m) with
      (match event_queue_ m with
       | [] => Ok m
       | _ :: _ =>
           m1 <- ProcessQueueEvent P fuel m ;;
           match event_queue_ m1 with
           | [] => Undefined m1
           | _ :: events' => drain P fuel (set_event_queue events' m1)
           end
       end) in H |- *.
    destruct (event_queue_ m) as [|front q]; [reflexivity|].
    pose proof (bind_OutOfFuel _ _ H) as Hq.
    unfold ProcessQueueEvent in *.
    rewrite (proj1 (ProcessQueueEvent_step fuel) _ _ Hq).
    destruct (ProcessQueueEvent_from P fuel 0 m) as [m1| | |]; cbn [bind] in *;
      try reflexivity.
    destruct (event_queue_ m1) as [|x eq']; [reflexivity|].
    apply IH. exact H.
Qed.

Lemma process_event_more_fuel (fuel fuel' : nat) (event : Event)
    (m : StateMachine) :
  fuel <= fuel' -> process_event P fuel event m <> OutOfFuel ->
  process_event P fuel' event m = process_event P fuel event m.
Proof.
  apply (more_fuel (fun f => process_event P f event m)).
  intros f. unfold process_event, Clone. apply drain_step.
Qed.

Lemma initialize_more_fuel (fuel fuel' : nat)
    (InitialStateType : StateTypeInfo) (owner : option nat) (m : StateMachine) :
  fuel <= fuel' -> initialize P fuel InitialStateType owner m <> OutOfFuel ->
  initialize P fuel' InitialStateType owner m = initialize P fuel InitialStateType owner m.
Proof.
  apply (more_fuel (fun f => initialize P f InitialStateType owner m)).
  intros f. unfold initialize.
  destruct (negb (IsNo (initial_transition_ m))); [reflexivity|].
  destruct (state_stack_ m); [|reflexivity].
  apply (proj2 (PushState_step f)).
Qed.

(** ** Nothing but initialize writes the initial transition *)

Lemma PushState_initial_transition (fuel : nat) :
  (forall state m m', PushState P fuel state m = Ok m' ->
     initial_transition_ m' = initial_transition_ m) /\
  (forall transition m m', CreateAndPushInitialState P fuel transition m = Ok m' ->
     initial_transition_ m' = initial_transition_ m).
Proof.
  induction fuel as [|fuel [IHp IHc]].
  - split; intros; discriminate.
  - split.
    + intros state m m'. rewrite PushState_unfold.
      destruct (HasInitializeState P state); intro H.
      * apply IHc in H. exact H.
      * injection H as <-. reflexivity.
    + intros transition m m'. rewrite CreateAndPushInitialState_unfold.
      destruct (CreateState transition 0 m); cbn [bind]; try discriminate.
      apply IHp.
Qed.

Lemma PopStateAtDepth_initial_transition (depth : nat) (m m' : StateMachine) :
  PopStateAtDepth depth m = Ok m' -> initial_transition_ m' = initial_transition_ m.
Proof.
  destruct (Nat.lt_ge_cases depth (length (state_stack_ m))) as [Hlt|Hge].
  - rewrite PopStateAtDepth_spec by exact Hlt. intro H. injection H as <-. reflexivity.
  - rewrite PopStateAtDepth_out_of_range by exact Hge. discriminate.
Qed.

Lemma call_react_initial_transition (s : State) (claimed : EventTypeInfo)
    (e : EventPtr) (m m' : StateMachine) (t : Transition) :
  call_react P s claimed e m = Ok (t, m') ->
  initial_transition_ m' = initial_transition_ m.
Proof.
  unfold call_react, State_defer, DeferEvent. intro H.
  destruct (react P (GetType s) claimed (pointee e)); simpl in H.
  - injection H as _ <-. reflexivity.
  - injection H as _ <-. reflexivity.
  - injection H as _ <-. reflexivity.
  - destruct (event_queue_ m) eqn:E; simpl in H; [discriminate|].
    injection H as _ <-. reflexivity.
  - destruct (ABORT_WHEN_AN_EVENT_NOT_HANDLE P); [discriminate|].
    injection H as _ <-. reflexivity.
Qed.

Lemma Dispatch_initial_transition (s : State) (e : EventPtr)
    (m m' : StateMachine) (t : Transition) :
  Dispatch P s e m = Ok (t, m') -> initial_transition_ m' = initial_transition_ m.
Proof.
  unfold Dispatch. generalize (last (reactions P (GetType s)) 0) as End.
  intro End. induction (reactions P (GetType s)) as [|b rest IH]; simpl; intro H.
  - injection H as _ <-. reflexivity.
  - destruct (TypeInfo_eq b End).
    + destruct (TypeInfo_eq End (event_type (pointee e))).
      * apply (call_react_initial_transition s End e m m' t H).
      * injection H as _ <-. reflexivity.
    + destruct (TypeInfo_eq b (event_type (pointee e))).
      * apply (call_react_initial_transition s b e m m' t H).
      * apply IH. exact H.
Qed.

Lemma ProcessQueueEvent_initial_transition (fuel : nat) :
  (forall depth m m', ProcessQueueEvent_from P fuel depth m = Ok m' ->
     initial_transition_ m' = initial_transition_ m) /\
  (forall i m m', ProcessDeferredEvent_from P fuel i m = Ok m' ->
     initial_transition_ m' = initial_transition_ m).
Proof.
  induction fuel as [|fuel [IHq IHd]].
  - split; intros; discriminate.
  - split.
    + intros depth m m'. rewrite ProcessQueueEvent_from_unfold.
      destruct (depth <? length (state_stack_ m)).
      * destruct (GetStateAtDepth depth m) as [state| | |]; cbn [bind]; try discriminate.
        destruct (event_queue_ m) as [|front q]; [discriminate|].
        destruct (Dispatch P state front (log [Dispatched depth state front] m))
          as [[transition m1]| | |] eqn:Hd; cbn [bind]; try discriminate.
        apply Dispatch_initial_transition in Hd. simpl in Hd.
        destruct (transition_type_ transition).
        -- destruct (PopStateAtDepth depth m1) as [m2| | |] eqn:Hp; cbn [bind];
             try discriminate.
           apply PopStateAtDepth_initial_transition in Hp.
           destruct (CreateState transition depth m2) as [target| | |]; cbn [bind];
             try discriminate.
           destruct (PushState P fuel target m2) as [m3| | |] eqn:Hpush; cbn [bind];
             try discriminate.
           apply (proj1 (PushState_initial_transition fuel)) in Hpush.
           intro H. apply IHd in H. congruence.
        -- intro H. injection H as <-. exact Hd.
        -- intro H. apply IHq in H. congruence.
      * cbv zeta. destruct (ABORT_WHEN_RECEIVE_UNKNOWN_EVENT P); [discriminate|].
        intro H. injection H as <-. reflexivity.
    + intros i m m'. rewrite ProcessDeferredEvent_from_unfold.
      destruct i as [|i]; [intro H; injection H as <-; reflexivity|].
      destruct (deferred_queue_ m) as [|front dq]; [discriminate|].
      cbv zeta.
      destruct (ProcessQueueEvent_from P fuel 0
                  (set_event_queue (front :: event_queue_ m) m)) as [m2| | |] eqn:Hq;
        cbn [bind]; try discriminate.
      apply IHq in Hq. simpl in Hq.
      destruct (deferred_queue_ m2) as [|x dq']; [discriminate|].
      destruct (event_queue_ (set_deferred_queue dq' m2)) as [|y eq']; [discriminate|].
      intro H. apply IHd in H. simpl in H. congruence.
Qed.

Lemma drain_initial_transition (fuel : nat) :
  forall m m', drain P fuel m = Ok m' -> initial_transition_ m' = initial_transition_ m.
Proof.
  induction fuel as [|fuel IH]; intros m m'; [discriminate|].
  simpl. destruct (event_queue_ m) as [|front q].
  - intro H. injection H as <-. reflexivity.
  - unfold ProcessQueueEvent.
    destruct (ProcessQueueEvent_from P fuel 0 m) as [m1| | |] eqn:Hq; cbn [bind];
      try discriminate.
    apply (proj1 (ProcessQueueEvent_initial_transition fuel)) in Hq.
    destruct (event_queue_ m1) as [|x eq']; [discriminate|].
    intro H. apply IH in H. simpl in H. congruence.
Qed.

Lemma process_event_initial_transition (fuel : nat) (event : Event)
    (m m' : StateMachine) :
  process_event P fuel event m = Ok m' -> initial_transition_ m' = initial_transition_ m.
Proof.
  unfold process_event, Clone. intro H. apply drain_initial_transition in H. exact H.
Qed.

Lemma after_calls_initial_transition (m m' : StateMachine) :
  after_calls P m m' -> initial_transition_ m' = initial_transition_ m.
Proof.
  induction 1 as [|m1 m2 fuel event _ IH H|m1 m2 _ IH H].
  - reflexivity.
  - apply process_event_initial_transition in H. congruence.
  - rewrite stop_spec in H. injection H as <-. exact IH.
Qed.

Lemma initialize_again (fuel : nat) (InitialStateType : StateTypeInfo)
    (owner : option nat) (m : StateMachine) :
  IsNo (initial_transition_ m) = false \/ state_stack_ m <> [] ->
  initialize P fuel InitialStateType owner m = AssertFail m.
Proof.
  unfold initialize. intros [H|H].
  - rewrite H. reflexivity.
  - destruct (negb (IsNo (initial_transition_ m))); [reflexivity|].
    destruct (state_stack_ m); [congruence | reflexivity].
Qed.

(** ** The replay of deferred events *)

(** The replay as the specification describes it, for deferred events none
    of which causes a transition when replayed: they are dispatched oldest
    first, each dispatch finished before the next begins, and the deferred
    queue is empty afterwards; stack and event queue are as before. *)
Proposition replay_fifo_without_transitions (stack : list State)
    (deferred : list EventPtr) (l : list Obs) :
  quiet_replay P stack deferred l ->
  forall (fuel : nat) (m : StateMachine),
  state_stack_ m = stack ->
  deferred_queue_ m = deferred ->
  length deferred + length stack + 1 <= fuel ->
  ProcessDeferredEvent P fuel m = Ok (set_deferred_queue [] (log l m)).
Proof.
  induction 1 as [|e k state claimed rest l [Hnth [Hend Hans]] _ IH];
    intros fuel m Hs Hdq Hf; unfold ProcessDeferredEvent in *; rewrite Hdq.
  - destruct fuel as [|fuel]; [simpl in Hf; lia|]. simpl.
    rewrite log_nil. f_equal. destruct m; simpl in *; subst; reflexivity.
  - destruct fuel as [|fuel]; [simpl in Hf; lia|].
    simpl length in *. rewrite ProcessDeferredEvent_from_unfold, Hdq. cbv zeta.
    assert (Hk : k < length stack).
    { apply nth_error_Some. rewrite Hnth. discriminate. }
    pose proof (ProcessQueueEvent_answer (fuel - S k)
                  (set_event_queue (e :: event_queue_ m) m) e (event_queue_ m) k state
                  NoTransition
                  (log [Reacted state claimed e]
                     (log (consulted stack e (S k))
                        (set_event_queue (e :: event_queue_ m) m)))
                  eq_refl) as Hpqe.
    cbn [state_stack_ set_event_queue] in Hpqe. rewrite Hs in Hpqe.
    specialize (Hpqe Hnth Hend (Hans _)).
    replace (S k + (fuel - S k)) with fuel in Hpqe by lia.
    unfold ProcessQueueEvent in Hpqe. rewrite Hpqe.
    cbn [bind transition_type_ NoTransition deferred_queue_ event_queue_ log
         set_event_queue set_deferred_queue].
    rewrite Hdq.
    match goal with
    | |- ProcessDeferredEvent_from P fuel (length rest) ?M = _ =>
        pose proof (IH fuel M) as IH'
    end.
    cbn [state_stack_ deferred_queue_ log set_event_queue set_deferred_queue] in IH'.
    rewrite IH' by (trivial; lia).
    f_equal. machine_eq.
Qed.

End Engine.

(** ** Two replays that go wrong *)

(** In a [Loop.spinning] machine the dispatch of the deferred close ends in
    the replay of the same event in another [Loop.spinning] machine: no
    amount of fuel is enough. *)
Lemma Loop_spins (fuel : nat) :
  forall (events : list EventPtr) (tr : list Obs),
  ProcessQueueEvent_from Loop.program fuel 0
    (Loop.spinning (Loop.deferred_close :: events) tr) = OutOfFuel.
Proof.
  induction fuel as [fuel IH] using lt_wf_ind. intros events tr.
  destruct fuel as [|f1]; [reflexivity|].
  rewrite ProcessQueueEvent_from_unfold.
  cbn -[ProcessQueueEvent_from ProcessDeferredEvent_from PushState].
  destruct f1 as [|f2]; [reflexivity|].
  rewrite PushState_unfold.
  cbn -[ProcessQueueEvent_from ProcessDeferredEvent_from PushState].
  rewrite ProcessDeferredEvent_from_unfold.
  cbn -[ProcessQueueEvent_from ProcessDeferredEvent_from PushState].
  match goal with
  | |- bind (ProcessQueueEvent_from _ _ _ ?M) _ = _ =>
      change M with (Loop.spinning (Loop.deferred_close :: Loop.deferred_close :: events)
                       (trace M))
  end.
  rewrite IH by lia. reflexivity.
Qed.

(** Evaluate the call a [bind] waits for. *)
Ltac eval_call :=
  match goal with
  | |- context [bind ?c _] =>
      let r := eval vm_compute in c in
      change c with r; cbn [bind]
  end.

(** The run of [Replay] does not depend on the fuel, from 8 on. *)
Lemma Replay_run_more_fuel (fuel : nat) :
  8 <= fuel -> Replay.run fuel = Replay.run 8.
Proof.
  intro Hf. unfold Replay.run.
  rewrite (initialize_more_fuel Replay.program 8 fuel)
    by (exact Hf || (vm_compute; discriminate)).
  eval_call.
  rewrite (process_event_more_fuel Replay.program 8 fuel)
    by (exact Hf || (vm_compute; discriminate)).
  eval_call.
  rewrite (process_event_more_fuel Replay.program 8 fuel)
    by (exact Hf || (vm_compute; discriminate)).
  eval_call.
  rewrite (process_event_more_fuel Replay.program 8 fuel)
    by (exact Hf || (vm_compute; discriminate)).
  reflexivity.
Qed.

(** ** The run of test.cc

    close is deferred by Second, open takes Second to Third, the deferred
    close is replayed to Third, and stop exits Third and First. *)

Example Test_main_run :
  exists m,
    Test.main 8 = Ok m /\
    state_stack_ m = [] /\
    deferred_queue_ m = [] /\
    reacted (trace m) = [(Test.Second, 0); (Test.Second, 1); (Test.Third, 0)] /\
    filter (fun o => negb (is_Dispatched o)) (trace m) =
      [on_enter (mkState Test.First 0); on_enter (mkState Test.Second 0);
       Reacted (mkState Test.Second 0) Test.event_close
         (mkEventPtr 0 (mkEvent Test.event_close 0));
       Reacted (mkState Test.Second 0) Test.event_open
         (mkEventPtr 1 (mkEvent Test.event_open 0));
       on_exit (mkState Test.Second 0); on_enter (mkState Test.Third 1);
       Reacted (mkState Test.Third 1) Test.event_close
         (mkEventPtr 0 (mkEvent Test.event_close 0));
       on_exit (mkState Test.Third 1); on_exit (mkState Test.First 0)].
Proof.
  assert (H : exists m, Test.main 8 = Ok m).
  { vm_compute. eexists. reflexivity. }
  destruct H as [m H]. exists m. split; [exact H|].
  revert H. vm_compute. intro H. injection H as <-. repeat split.
Qed.

(** * The claims of the specification *)

(** C1 (fails on the code). CreateAndPushInitialState creates every state
    with depth 0, also an initial substate pushed below its parent: after
    initialize<First>() of test.cc the stack is [First; Second] and Second,
    at index 1, records depth 0. *)
Theorem C1_initial_substate_records_depth_zero :
  exists m,
    (forall fuel,
       initialize Test.program (4 + fuel) Test.First (Some 7) new_StateMachine = Ok m) /\
    state_stack_ m = [mkState Test.First 0; mkState Test.Second 0] /\
    nth_error (state_stack_ m) 1 = Some (mkState Test.Second 0) /\
    depth_invariant m = false.
Proof.
  exists (mkStateMachine (Some 7) (SiblingTransition Test.First)
            [mkState Test.First 0; mkState Test.Second 0] [] [] 0
            [on_enter (mkState Test.First 0); on_enter (mkState Test.Second 0)]).
  repeat split.
Qed.

(** C2 (fails on the code). In the [Loop] program the replay of the deferred
    close never returns: the replayed event is still at the front of the
    deferred queue while it is dispatched, so the transition it causes
    replays it again, and so on.  Whatever the fuel, process_event(open) does
    not come to a result. *)
Theorem C2_replay_does_not_terminate :
  (m1 <- initialize Loop.program 4 Loop.S_ None new_StateMachine ;;
   process_event Loop.program 4 (mkEvent Loop.close 0) m1) = Ok Loop.before_open /\
  forall fuel : nat,
  process_event Loop.program fuel (mkEvent Loop.open 0) Loop.before_open = OutOfFuel.
Proof.
  split; [reflexivity|].
  intro fuel. unfold process_event, Clone.
  destruct fuel as [|f0]; [reflexivity|].
  cbn [drain event_queue_ set_event_queue set_next_clone Loop.before_open app next_clone].
  unfold ProcessQueueEvent.
  destruct f0 as [|f1]; [reflexivity|].
  rewrite ProcessQueueEvent_from_unfold.
  cbn -[ProcessQueueEvent_from ProcessDeferredEvent_from PushState drain].
  destruct f1 as [|f2]; [reflexivity|].
  rewrite PushState_unfold.
  cbn -[ProcessQueueEvent_from ProcessDeferredEvent_from PushState drain].
  rewrite ProcessDeferredEvent_from_unfold.
  cbn -[ProcessQueueEvent_from ProcessDeferredEvent_from PushState drain].
  match goal with
  | |- bind (bind (ProcessQueueEvent_from _ _ _ ?M) _) _ = _ =>
      change M with (Loop.spinning
                       [Loop.deferred_close; mkEventPtr 1 (mkEvent Loop.open 0)]
                       (trace M))
  end.
  rewrite Loop_spins. reflexivity.
Qed.

(** C3 (fails on the code). In the [Replay] program close is deferred twice
    (clones 0 and 1) and open (clone 2) then causes the transition S -> T.
    The replay dispatches clone 0 to T, which answers by the transition
    T -> U; inside that dispatch the replay starts over: clone 0 is
    dispatched a second time, to U, and clone 1 after it, before the first
    dispatch of clone 0 has returned.  Back in the outer replay the deferred
    queue is empty and its pop_front is undefined behaviour. *)
Theorem C3_replayed_transition_replays_again :
  exists m,
    (forall fuel, Replay.run (8 + fuel) = Undefined m) /\
    reacted (trace m) =
      [(Replay.S_, 0); (Replay.S_, 1); (Replay.S_, 2);
       (Replay.T, 0); (Replay.U, 0); (Replay.U, 1)] /\
    deferred_queue_ m = [] /\
    state_stack_ m = [mkState Replay.U 0].
Proof.
  assert (H : exists m, Replay.run 8 = Undefined m).
  { vm_compute. eexists. reflexivity. }
  destruct H as [m H]. exists m. split.
  - intro fuel. rewrite Replay_run_more_fuel by lia. exact H.
  - revert H. vm_compute. intro H. injection H as <-. repeat split.
Qed.

(** C4. Dispatching the front event asks the states in increasing depth
    order starting at the root: while the states at depths 0 .. k-1 answer
    EndTransition (not handled) the event is passed on to the next depth.  At
    the first state (depth k) whose answer is not EndTransition the loop
    ends: on NoTransition the dispatch returns at once, the states asked
    being exactly those at depths 0 .. k and the stack being untouched; on a
    Sibling answer exactly one transition is executed, at depth k (pop, create
    at depth k, push), followed by the replay of deferred events, and the
    dispatch returns.  No state deeper than k is asked by this dispatch. *)
Theorem C4_dispatch_root_to_leaf (P : Program) (fuel : nat) (m : StateMachine)
    (front : EventPtr) (q : list EventPtr) (k : nat) (state : State)
    (transition : Transition) (m' : StateMachine) :
  event_queue_ m = front :: q ->
  nth_error (state_stack_ m) k = Some state ->
  (forall j sj mj, j < k -> nth_error (state_stack_ m) j = Some sj ->
     Dispatch P sj front mj = Ok (EndTransition, mj)) ->
  Dispatch P state front (log (consulted (state_stack_ m) front (S k)) m)
    = Ok (transition, m') ->
  transition_type_ transition <> End ->
  ProcessQueueEvent P (S k + fuel) m =
    match transition_type_ transition with
    | Sibling =>
        m2 <- PopStateAtDepth k m' ;;
        target_state <- CreateState transition k m2 ;;
        m3 <- PushState P fuel target_state m2 ;;
        ProcessDeferredEvent P fuel m3
    | _ => Ok m'
    end /\
  state_stack_ m' = state_stack_ m /\
  exists l, trace m' = trace m ++ consulted (state_stack_ m) front (S k) ++ l /\
            existsb is_Dispatched l = false.
Proof.
  intros Hq Hnth Hend Hd Hne. split; [|split].
  - rewrite (ProcessQueueEvent_answer P fuel m front q k state transition m' Hq Hnth Hend Hd).
    destruct (transition_type_ transition); [reflexivity | reflexivity | congruence].
  - apply (Dispatch_frame P state front _ m' transition Hd).
  - destruct (Dispatch_frame P state front _ m' transition Hd) as [_ [_ [l [Hl Hnd]]]].
    exists l. split; [|exact Hnd]. rewrite Hl. cbn [trace log].
    rewrite <- app_assoc. reflexivity.
Qed.

Lemma C4_dispatch_root_to_leaf_witness :
  let close0 := mkEventPtr 0 (mkEvent Test.event_close 0) in
  let m := mkStateMachine (Some 7) (SiblingTransition Test.First)
             [mkState Test.First 0; mkState Test.Second 0; mkState Test.Third 0]
             [close0] [] 1 [] in
  let m' := mkStateMachine (Some 7) (SiblingTransition Test.First)
             [mkState Test.First 0; mkState Test.Second 0; mkState Test.Third 0]
             [close0] [close0] 1
             [Dispatched 0 (mkState Test.First 0) close0;
              Dispatched 1 (mkState Test.Second 0) close0;
              Reacted (mkState Test.Second 0) Test.event_close close0] in
  ProcessQueueEvent Test.program 5 m = Ok m' /\
  state_stack_ m' = state_stack_ m /\
  exists l, trace m' = trace m ++ consulted (state_stack_ m) close0 2 ++ l /\
            existsb is_Dispatched l = false.
Proof.
  intros close0 m m'.
  apply (C4_dispatch_root_to_leaf Test.program 3 m close0 [] 1
           (mkState Test.Second 0) NoTransition m').
  - reflexivity.
  - reflexivity.
  - intros j sj mj Hj Hsj.
    assert (j = 0) as -> by lia. injection Hsj as <-. reflexivity.
  - reflexivity.
  - discriminate.
Defined.



(** C6. Pushing a state appends it to the stack and runs its on_enter; if
    its declared initial substate is another type, that substate is created,
    pushed and entered next, and so on down the chain of initial substates,
    all inside the one call of PushState.  A state whose initial substate is
    its own type has none: the chain ends there. *)
Theorem C6_push_cascades_initial_substates (P : Program) (n fuel : nat) (state : State)
    (m : StateMachine) (subs : list StateTypeInfo) :
  cascade P n (GetType state) = Some subs ->
  2 * n <= S fuel ->
  PushState P fuel state m =
    Ok (log (map on_enter (pushed_chain state subs))
          (set_state_stack (state_stack_ m ++ pushed_chain state subs) m)) /\
  (InitType P (GetType state) = GetType state -> subs = []) /\
  (InitType P (GetType state) <> GetType state ->
     exists rest, subs = InitType P (GetType state) :: rest /\
                  cascade P (n - 1) (InitType P (GetType state)) = Some rest).
Proof.
  intros Hc Hf. split; [apply (PushState_cascade P n); assumption|].
  destruct n as [|n]; [discriminate|]. simpl in Hc.
  replace (S n - 1) with n by lia.
  destruct (TypeInfo_eq (GetType state) (InitType P (GetType state))) eqn:Heq.
  - apply TypeInfo_eq_true in Heq. injection Hc as <-. split; [reflexivity|].
    intro Hne. congruence.
  - apply TypeInfo_eq_false in Heq. split; [congruence|]. intros _.
    destruct (cascade P n (InitType P (GetType state))) as [rest|]; [|discriminate].
    injection Hc as <-. exists rest. split; reflexivity.
Qed.

Lemma C6_push_cascades_initial_substates_witness :
  PushState Test.program 3 (mkState Test.First 0) new_StateMachine =
    Ok (log [on_enter (mkState Test.First 0); on_enter (mkState Test.Second 0)]
          (set_state_stack [mkState Test.First 0; mkState Test.Second 0] new_StateMachine)).
Proof.
  apply (C6_push_cascades_initial_substates Test.program 2 3 (mkState Test.First 0)
           new_StateMachine [Test.Second]).
  - reflexivity.
  - simpl. lia.
Defined.

(** C7 (fails on the code). DispatchImpl ends its search at the first type
    equal to the last type of the reactions list, not at the last position.
    A state with reactions hsm_vector<close, open, close> and a react
    overload finish() for each of them lists open, and open is the first
    listed kind equal to the kind of an open event; yet Dispatch compares
    close alone, runs no react overload and answers EndTransition, and
    process_event(open) ends in the unknown-event assertion.  For a close
    event the same state does run its overload and returns its
    NoTransition. *)
Theorem C7_repeated_last_kind_ends_the_search :
  reactions Repeated.program 1 = [Repeated.close; Repeated.open; Repeated.close] /\
  first_claimed Repeated.program (mkState 1 0) (mkEventPtr 0 (mkEvent Repeated.open 0))
    = Some Repeated.open /\
  react Repeated.program 1 Repeated.open (mkEvent Repeated.open 0) = finish /\
  (forall m,
     Dispatch Repeated.program (mkState 1 0) (mkEventPtr 0 (mkEvent Repeated.open 0)) m
     = Ok (EndTransition, m)) /\
  (forall m,
     Dispatch Repeated.program (mkState 1 0) (mkEventPtr 0 (mkEvent Repeated.close 0)) m
     = Ok (NoTransition,
           log [Reacted (mkState 1 0) Repeated.close
                  (mkEventPtr 0 (mkEvent Repeated.close 0))] m)) /\
  exists m0 m1,
    initialize Repeated.program 2 1 None new_StateMachine = Ok m0 /\
    process_event Repeated.program 3 (mkEvent Repeated.open 0) m0 = AssertFail m1 /\
    state_stack_ m1 = [mkState 1 0] /\
    trace m1 = [on_enter (mkState 1 0);
                Dispatched 0 (mkState 1 0) (mkEventPtr 0 (mkEvent Repeated.open 0));
                Diag_unknown_event].
Proof.
  split; [reflexivity|]. split; [reflexivity|]. split; [reflexivity|].
  split; [intro m; reflexivity|]. split; [intro m; reflexivity|].
  exists (mkStateMachine None (SiblingTransition 1) [mkState 1 0] [] [] 0
            [on_enter (mkState 1 0)]).
  eexists. split; [reflexivity|]. split; [vm_compute; reflexivity|].
  split; reflexivity.
Qed.

(** C8. When every state from the root to the leaf answers EndTransition for
    an event passed to process_event, the engine asks each of them once, in
    root-to-leaf order, emits the unknown-event diagnostic, and then: with
    ABORT_WHEN_RECEIVE_UNKNOWN_EVENT set the assertion fails; without it
    process_event returns with the event removed from the queue and the
    state stack, the deferred queue and the configuration unchanged. *)
Theorem C8_unknown_event (P : Program) (fuel : nat) (event : Event) (m : StateMachine) :
  event_queue_ m = [] ->
  (forall state mj, In state (state_stack_ m) ->
     Dispatch P state (mkEventPtr (next_clone m) event) mj = Ok (EndTransition, mj)) ->
  length (state_stack_ m) + 2 <= fuel ->
  process_event P fuel event m =
  if ABORT_WHEN_RECEIVE_UNKNOWN_EVENT P
  then AssertFail
         (log (consulted (state_stack_ m) (mkEventPtr (next_clone m) event)
                 (length (state_stack_ m)) ++ [Diag_unknown_event])
            (set_event_queue [mkEventPtr (next_clone m) event]
               (set_next_clone (S (next_clone m)) m)))
  else Ok (log (consulted (state_stack_ m) (mkEventPtr (next_clone m) event)
                  (length (state_stack_ m)) ++ [Diag_unknown_event])
             (set_next_clone (S (next_clone m)) m)).
Proof.
  intros Hq Hend Hf.
  assert (Hfuel : exists f2, fuel = S (length (state_stack_ m) + S f2)).
  { exists (fuel - length (state_stack_ m) - 2). lia. }
  destruct Hfuel as [f2 ->].
  unfold process_event, Clone. cbn [event_queue_ set_next_clone]. rewrite Hq.
  cbn [app drain event_queue_ set_event_queue].
  pose proof (ProcessQueueEvent_unknown P f2
                (set_event_queue [mkEventPtr (next_clone m) event]
                   (set_next_clone (S (next_clone m)) m))
                (mkEventPtr (next_clone m) event) [] eq_refl Hend) as Hpqe.
  cbn [state_stack_ set_event_queue set_next_clone] in Hpqe.
  cbn [state_stack_ set_event_queue set_next_clone].
  rewrite Hpqe.
  destruct (ABORT_WHEN_RECEIVE_UNKNOWN_EVENT P); cbn [bind]; [reflexivity|].
  cbn [event_queue_ log set_event_queue].
  rewrite Nat.add_succ_r. cbn [drain event_queue_ set_event_queue].
  f_equal. unfold_sets. cbn. rewrite Hq. reflexivity.
Qed.

Lemma C8_unknown_event_witness :
  let m := mkStateMachine (Some 7) (SiblingTransition Test.First)
             [mkState Test.First 0; mkState Test.Third 1] [] [] 2 [] in
  process_event Test.program 4 (mkEvent Test.event_open 0) m =
  AssertFail
    (log [Dispatched 0 (mkState Test.First 0) (mkEventPtr 2 (mkEvent Test.event_open 0));
          Dispatched 1 (mkState Test.Third 1) (mkEventPtr 2 (mkEvent Test.event_open 0));
          Diag_unknown_event]
       (set_event_queue [mkEventPtr 2 (mkEvent Test.event_open 0)] (set_next_clone 3 m))).
Proof.
  intro m.
  apply (C8_unknown_event Test.program 4 (mkEvent Test.event_open 0) m).
  - reflexivity.
  - intros state mj [<- | [<- | []]]; reflexivity.
  - simpl. lia.
Defined.

(** C9. initialize succeeds on a machine that was never initialized and
    whose stack is empty: it records the owner, creates the root state at
    depth 0 and pushes it together with the chain of its initial substates.
    Every later call of initialize, whatever calls of process_event and stop
    came in between, fails its first assertion; and on any machine with a
    non-empty state stack initialize fails an assertion. *)
Theorem C9_initialize_once (P : Program) (fuel n : nat) (InitialStateType : StateTypeInfo)
    (owner : option nat) (subs : list StateTypeInfo) (m : StateMachine) :
  IsNo (initial_transition_ m) = true ->
  state_stack_ m = [] ->
  cascade P n InitialStateType = Some subs ->
  2 * n <= fuel ->
  (exists m',
     initialize P fuel InitialStateType owner m = Ok m' /\
     owner_ m' = owner /\
     state_stack_ m' = pushed_chain (mkState InitialStateType 0) subs /\
     trace m' = trace m ++ map on_enter (pushed_chain (mkState InitialStateType 0) subs) /\
     forall m2 fuel2 T2 owner2,
       after_calls P m' m2 -> initialize P fuel2 T2 owner2 m2 = AssertFail m2) /\
  (forall m2 fuel2 T2 owner2,
     state_stack_ m2 <> [] -> initialize P fuel2 T2 owner2 m2 = AssertFail m2).
Proof.
  intros Hno Hempty Hc Hf. split.
  - destruct fuel as [|fuel]; [pose proof (cascade_fuel P n _ _ Hc); lia|].
    unfold initialize. rewrite Hno, Hempty. cbn [negb].
    rewrite CreateAndPushInitialState_unfold.
    unfold CreateState. cbn [initial_transition_ set_owner set_initial_transition
      state_factory_ SiblingTransition bind].
    change (InitState (AllocateState InitialStateType) 0) with (mkState InitialStateType 0).
    rewrite (PushState_cascade P n fuel (mkState InitialStateType 0) _ subs Hc)
      by lia.
    eexists. split; [reflexivity|].
    split; [reflexivity|]. split; [simpl; rewrite Hempty; reflexivity|].
    split; [reflexivity|].
    intros m2 fuel2 T2 owner2 Hafter. apply initialize_again. left.
    rewrite (after_calls_initial_transition P _ m2 Hafter). reflexivity.
  - intros m2 fuel2 T2 owner2 Hne. apply initialize_again. right. exact Hne.
Qed.

Lemma C9_initialize_once_witness :
  exists m',
    initialize Test.program 4 Test.First (Some 7) new_StateMachine = Ok m' /\
    owner_ m' = Some 7 /\
    state_stack_ m' = [mkState Test.First 0; mkState Test.Second 0] /\
    trace m' = [on_enter (mkState Test.First 0); on_enter (mkState Test.Second 0)] /\
    forall m2 fuel2 T2 owner2,
      after_calls Test.program m' m2 ->
      initialize Test.program fuel2 T2 owner2 m2 = AssertFail m2.
Proof.
  apply (C9_initialize_once Test.program 4 2 Test.First (Some 7) [Test.Second]
           new_StateMachine).
  - reflexivity.
  - reflexivity.
  - reflexivity.
  - simpl. lia.
Defined.

(** C10. A call of defer() while an event is being dispatched (the event
    queue has a front) appends that very front clone, without allocating a
    copy, to the back of the deferred queue, returns NoTransition, and leaves
    the state stack and the event queue as they were; with an empty event
    queue the assertion of DeferEvent fails. *)
Theorem C10_defer_appends_front_event (m : StateMachine) (front : EventPtr)
    (q : list EventPtr) :
  event_queue_ m = front :: q ->
  (exists m',
     State_defer m = Ok (NoTransition, m') /\
     deferred_queue_ m' = deferred_queue_ m ++ [front] /\
     state_stack_ m' = state_stack_ m /\
     event_queue_ m' = event_queue_ m /\
     next_clone m' = next_clone m) /\
  State_defer (set_event_queue [] m) = AssertFail (set_event_queue [] m).
Proof.
  intro Hq. split.
  - exists (set_deferred_queue (deferred_queue_ m ++ [front]) m).
    unfold State_defer, DeferEvent. rewrite Hq. simpl. rewrite Hq.
    repeat split; reflexivity.
  - reflexivity.
Qed.

Lemma C10_defer_appends_front_event_witness :
  let m := mkStateMachine None NoTransition [mkState 2 0]
             [mkEventPtr 4 (mkEvent 2 0); mkEventPtr 5 (mkEvent 1 0)]
             [mkEventPtr 3 (mkEvent 2 0)] 6 [] in
  (exists m',
     State_defer m = Ok (NoTransition, m') /\
     deferred_queue_ m' = deferred_queue_ m ++ [mkEventPtr 4 (mkEvent 2 0)] /\
     state_stack_ m' = state_stack_ m /\
     event_queue_ m' = event_queue_ m /\
     next_clone m' = next_clone m) /\
  State_defer (set_event_queue [] m) = AssertFail (set_event_queue [] m).
Proof.
  intro m.
  apply (C10_defer_appends_front_event m (mkEventPtr 4 (mkEvent 2 0))
           [mkEventPtr 5 (mkEvent 1 0)]).
  reflexivity.
Defined.

(** * Further properties of the engine *)

Section Shapes.

Variable P : Program.

(** ** What a dispatch to one state can change *)

Lemma call_react_shape (s : State) (claimed : EventTypeInfo) (e : EventPtr)
    (m m1 : StateMachine) (t : Transition) :
  call_react P s claimed e m = Ok (t, m1) ->
  exists l dq',
    m1 = set_deferred_queue dq' (log l m) /\
    forallb is_react_obs l = true /\
    (transition_type_ t = Sibling -> dq' = deferred_queue_ m) /\
    (dq' = deferred_queue_ m \/
     exists front q, event_queue_ m = front :: q /\ dq' = deferred_queue_ m ++ [front]).
Proof.
  unfold call_react, State_defer, DeferEvent. intro H.
  destruct (react P (GetType s) claimed (pointee e)); simpl in H.
  - injection H as <- <-. exists [Reacted s claimed e], (deferred_queue_ m).
    repeat split; auto.
  - injection H as <- <-. exists [Reacted s claimed e], (deferred_queue_ m).
    repeat split; auto.
  - injection H as <- <-. exists [Reacted s claimed e], (deferred_queue_ m).
    repeat split; auto.
  - destruct (event_queue_ m) as [|front q] eqn:E; simpl in H; [discriminate|].
    injection H as <- <-.
    exists [Reacted s claimed e], (deferred_queue_ m ++ [front]).
    repeat split; [discriminate|]. right. exists front, q. split; reflexivity.
  - destruct (ABORT_WHEN_AN_EVENT_NOT_HANDLE P); [discriminate|].
    injection H as <- <-.
    exists [Reacted s claimed e; Diag_event_not_handled e], (deferred_queue_ m).
    repeat split; auto. machine_eq.
Qed.

Lemma Dispatch_shape (s : State) (e : EventPtr) (m m1 : StateMachine) (t : Transition) :
  Dispatch P s e m = Ok (t, m1) ->
  exists l dq',
    m1 = set_deferred_queue dq' (log l m) /\
    forallb is_react_obs l = true /\
    (transition_type_ t = Sibling -> dq' = deferred_queue_ m) /\
    (dq' = deferred_queue_ m \/
     exists front q, event_queue_ m = front :: q /\ dq' = deferred_queue_ m ++ [front]).
Proof.
  unfold Dispatch. generalize (last (reactions P (GetType s)) 0). intro End.
  assert (Hend : forall t' m', Ok (EndTransition, m) = Ok (t', m') ->
    exists l dq',
      m' = set_deferred_queue dq' (log l m) /\
      forallb is_react_obs l = true /\
      (transition_type_ t' = Sibling -> dq' = deferred_queue_ m) /\
      (dq' = deferred_queue_ m \/
       exists front q, event_queue_ m = front :: q /\ dq' = deferred_queue_ m ++ [front])).
  { intros t' m' H. injection H as <- <-. exists [], (deferred_queue_ m).
    split; [|split; [reflexivity | split; [discriminate | left; reflexivity]]].
    destruct m; unfold set_deferred_queue, log; simpl. rewrite app_nil_r. reflexivity. }
  induction (reactions P (GetType s)) as [|b rest IH]; simpl; intro H.
  - apply Hend. exact H.
  - destruct (TypeInfo_eq b End).
    + destruct (TypeInfo_eq End (event_type (pointee e))).
      * apply (call_react_shape s End e m m1 t H).
      * apply Hend. exact H.
    + destruct (TypeInfo_eq b (event_type (pointee e))).
      * apply (call_react_shape s b e m m1 t H).
      * apply IH. exact H.
Qed.

Lemma DispatchImpl_unclaimed (End : EventTypeInfo) (s : State) (e : EventPtr)
    (m : StateMachine) (Sequence : list EventTypeInfo) :
  ~ In (event_type (pointee e)) Sequence ->
  DispatchImpl P End Sequence s e m = Ok (EndTransition, m).
Proof.
  induction Sequence as [|b rest IH]; simpl; intro Hnot; [reflexivity|].
  assert (Hb : TypeInfo_eq b (event_type (pointee e)) = false).
  { apply TypeInfo_eq_false. intro Hb. apply Hnot. left. exact Hb. }
  destruct (TypeInfo_eq b End) eqn:HbE.
  - apply TypeInfo_eq_true in HbE. subst b. rewrite Hb. reflexivity.
  - rewrite Hb. apply IH. intro Hin. apply Hnot. right. exact Hin.
Qed.

Lemma Dispatch_unclaimed (s : State) (e : EventPtr) (m : StateMachine) :
  ~ In (event_type (pointee e)) (reactions P (GetType s)) ->
  Dispatch P s e m = Ok (EndTransition, m).
Proof. unfold Dispatch. apply DispatchImpl_unclaimed. Qed.

Lemma DispatchImpl_compared (End : EventTypeInfo) (s : State) (e : EventPtr)
    (m : StateMachine) (Sequence : list EventTypeInfo) :
  DispatchImpl P End Sequence s e m =
  if existsb (fun claimed => TypeInfo_eq claimed (event_type (pointee e)))
       (compared End Sequence)
  then call_react P s (event_type (pointee e)) e m
  else Ok (EndTransition, m).
Proof.
  induction Sequence as [|b rest IH]; simpl; [reflexivity|].
  destruct (TypeInfo_eq b End) eqn:HbE.
  - apply TypeInfo_eq_true in HbE. subst b. simpl. rewrite orb_false_r.
    destruct (TypeInfo_eq End (event_type (pointee e))) eqn:Hk; [|reflexivity].
    apply TypeInfo_eq_true in Hk. rewrite Hk. reflexivity.
  - simpl.
    destruct (TypeInfo_eq b (event_type (pointee e))) eqn:Hk; simpl; [|exact IH].
    apply TypeInfo_eq_true in Hk. rewrite Hk. reflexivity.
Qed.

Lemma existsb_kind (kind : EventTypeInfo) (l : list EventTypeInfo) :
  existsb (fun claimed => TypeInfo_eq claimed kind) l = true <-> In kind l.
Proof.
  rewrite existsb_exists. split.
  - intros [x [Hin Hx]]. apply TypeInfo_eq_true in Hx. subst x. exact Hin.
  - intro Hin. exists kind. split; [exact Hin | apply TypeInfo_eq_true; reflexivity].
Qed.

(** A state runs a react overload for exactly the kinds it finds. *)
Lemma Dispatch_found (s : State) (e : EventPtr) (m : StateMachine) :
  In (event_type (pointee e)) (searched P s) ->
  Dispatch P s e m = call_react P s (event_type (pointee e)) e m.
Proof.
  intro Hin. unfold searched in Hin. unfold Dispatch. cbv zeta.
  rewrite DispatchImpl_compared.
  rewrite (proj2 (existsb_kind _ _) Hin). reflexivity.
Qed.

Lemma Dispatch_not_found (s : State) (e : EventPtr) (m : StateMachine) :
  ~ In (event_type (pointee e)) (searched P s) ->
  Dispatch P s e m = Ok (EndTransition, m).
Proof.
  intro Hnot. unfold searched in Hnot. unfold Dispatch. cbv zeta.
  rewrite DispatchImpl_compared.
  destruct (existsb (fun claimed => TypeInfo_eq claimed (event_type (pointee e)))
              (compared (last (reactions P (GetType s)) 0) (reactions P (GetType s))))
    eqn:Hex; [|reflexivity].
  exfalso. apply Hnot. apply existsb_kind. exact Hex.
Qed.

Lemma compared_of_set (x : EventTypeInfo) (pre : list EventTypeInfo) :
  ~ In x pre -> compared x (pre ++ [x]) = pre ++ [x].
Proof.
  induction pre as [|b pre IH]; intro Hnot; simpl.
  - unfold TypeInfo_eq. rewrite Nat.eqb_refl. reflexivity.
  - assert (Hb : TypeInfo_eq b x = false).
    { apply TypeInfo_eq_false. intro Hb. apply Hnot. left. exact Hb. }
    rewrite Hb, IH; [reflexivity|].
    intro Hin. apply Hnot. right. exact Hin.
Qed.

(** In a reactions list that names no kind twice every kind is found. *)
Lemma searched_of_set (s : State) :
  NoDup (reactions P (GetType s)) -> searched P s = reactions P (GetType s).
Proof.
  intro Hnd. unfold searched.
  destruct (reactions P (GetType s)) as [|x pre _] using rev_ind; [reflexivity|].
  rewrite last_last. apply compared_of_set.
  apply NoDup_remove_2 in Hnd. rewrite app_nil_r in Hnd. exact Hnd.
Qed.

(** ** What a push can change *)

Lemma PushState_shape (fuel : nat) :
  (forall state m m', PushState P fuel state m = Ok m' ->
     exists n subs,
       cascade P n (GetType state) = Some subs /\
       m' = log (map on_enter (pushed_chain state subs))
              (set_state_stack (state_stack_ m ++ pushed_chain state subs) m)) /\
  (forall transition m m', CreateAndPushInitialState P fuel transition m = Ok m' ->
     exists n subs T,
       state_factory_ transition = Some T /\
       cascade P n T = Some subs /\
       m' = log (map on_enter (pushed_chain (AllocateState T) subs))
              (set_state_stack (state_stack_ m ++ pushed_chain (AllocateState T) subs) m)).
Proof.
  induction fuel as [|fuel [IHp IHc]].
  - split; intros; discriminate.
  - split.
    + intros state m m'. rewrite PushState_unfold. unfold HasInitializeState.
      destruct (TypeInfo_eq (GetType state) (InitType P (GetType state))) eqn:Heq;
        cbn [negb]; intro H.
      * injection H as <-. exists 1, []. simpl. rewrite Heq. split; reflexivity.
      * apply IHc in H. destruct H as [n [subs [T [HT [Hc ->]]]]].
        unfold GetInitializeState in HT. simpl in HT. injection HT as <-.
        exists (S n), (InitType P (GetType state) :: subs). split.
        -- simpl. rewrite Heq, Hc. reflexivity.
        -- unfold pushed_chain. machine_eq.
    + intros transition m m'. rewrite CreateAndPushInitialState_unfold.
      unfold CreateState.
      destruct (state_factory_ transition) as [T|]; cbn [bind]; [|discriminate].
      change (InitState (AllocateState T) 0) with (AllocateState T).
      intro H. apply IHp in H. destruct H as [n [subs [Hc ->]]].
      exists n, subs, T. repeat split. exact Hc.
Qed.

Lemma PushState_no_failure (fuel : nat) :
  (forall state m, PushState P fuel state m = OutOfFuel \/
                   exists m', PushState P fuel state m = Ok m') /\
  (forall T m, CreateAndPushInitialState P fuel (SiblingTransition T) m = OutOfFuel \/
               exists m', CreateAndPushInitialState P fuel (SiblingTransition T) m = Ok m').
Proof.
  induction fuel as [|fuel [IHp IHc]].
  - split; intros; left; reflexivity.
  - split.
    + intros state m. rewrite PushState_unfold.
      destruct (HasInitializeState P state); [apply IHc|].
      right. eexists. reflexivity.
    + intros T m. rewrite CreateAndPushInitialState_unfold. apply IHp.
Qed.

End Shapes.

(** ** Invariants of event processing

    A property of the machine that does not depend on the two queues, on the
    clone counter or on what a dispatch logs, and that a transition (pop down
    to a depth, push a target created at that depth with a chain below it)
    keeps, is kept by [process_event]. *)

Section Invariant.

Variable P : Program.
Variable Inv : StateMachine -> Prop.

Hypothesis Inv_event_queue : forall m q, Inv m -> Inv (set_event_queue q m).
Hypothesis Inv_deferred_queue : forall m q, Inv m -> Inv (set_deferred_queue q m).
Hypothesis Inv_next_clone : forall m n, Inv m -> Inv (set_next_clone n m).
Hypothesis Inv_log : forall m l, existsb is_lifecycle l = false -> Inv m -> Inv (log l m).
Hypothesis Inv_transition : forall m depth T subs,
  Inv m -> depth < length (state_stack_ m) ->
  Inv (log (exits_down (state_stack_ m) depth
            ++ map on_enter (pushed_chain (mkState T depth) subs))
         (set_state_stack
            (firstn depth (state_stack_ m) ++ pushed_chain (mkState T depth) subs) m)).

Lemma react_obs_not_lifecycle (l : list Obs) :
  forallb is_react_obs l = true -> existsb is_lifecycle l = false.
Proof.
  induction l as [|o l IH]; simpl; [reflexivity|].
  intro H. apply andb_true_iff in H. destruct H as [Ho Hl].
  rewrite (IH Hl). destruct o; simpl in *; try discriminate; reflexivity.
Qed.

Lemma Dispatch_invariant (depth : nat) (state : State) (front : EventPtr)
    (m m1 : StateMachine) (t : Transition) :
  Inv m ->
  Dispatch P state front (log [Dispatched depth state front] m) = Ok (t, m1) ->
  Inv m1 /\ state_stack_ m1 = state_stack_ m.
Proof.
  intros HI Hd. apply Dispatch_shape in Hd. destruct Hd as [l [dq' [-> [Hl _]]]].
  split; [|reflexivity].
  apply Inv_deferred_queue, Inv_log; [apply react_obs_not_lifecycle; exact Hl|].
  apply Inv_log; [reflexivity | exact HI].
Qed.

Lemma transition_invariant (fuel depth : nat) (transition : Transition)
    (m1 m2 m3 : StateMachine) (target : State) :
  Inv m1 ->
  depth < length (state_stack_ m1) ->
  PopStateAtDepth depth m1 = Ok m2 ->
  CreateState transition depth m2 = Ok target ->
  PushState P fuel target m2 = Ok m3 ->
  Inv m3.
Proof.
  intros HI Hlt Hpop Hcreate Hpush.
  rewrite PopStateAtDepth_spec in Hpop by exact Hlt. injection Hpop as <-.
  unfold CreateState in Hcreate.
  destruct (state_factory_ transition) as [T|]; [|discriminate].
  injection Hcreate as <-.
  change (InitState (AllocateState T) depth) with (mkState T depth) in Hpush.
  apply (proj1 (PushState_shape P fuel)) in Hpush.
  destruct Hpush as [n [subs [_ ->]]].
  pose proof (Inv_transition m1 depth T subs HI Hlt) as H.
  match goal with
  | |- Inv ?M => replace M with
      (log (exits_down (state_stack_ m1) depth
            ++ map on_enter (pushed_chain (mkState T depth) subs))
         (set_state_stack
            (firstn depth (state_stack_ m1) ++ pushed_chain (mkState T depth) subs) m1))
  end; [exact H|].
  machine_eq.
Qed.

Lemma ProcessQueueEvent_invariant (fuel : nat) :
  (forall depth m m', Inv m -> ProcessQueueEvent_from P fuel depth m = Ok m' -> Inv m') /\
  (forall i m m', Inv m -> ProcessDeferredEvent_from P fuel i m = Ok m' -> Inv m').
Proof.
  induction fuel as [|fuel [IHq IHd]].
  - split; intros; discriminate.
  - split.
    + intros depth m m' HI. rewrite ProcessQueueEvent_from_unfold.
      destruct (depth <? length (state_stack_ m)) eqn:Hlt.
      * apply Nat.ltb_lt in Hlt.
        destruct (GetStateAtDepth depth m) as [state| | |]; cbn [bind]; try discriminate.
        destruct (event_queue_ m) as [|front q]; [discriminate|].
        destruct (Dispatch P state front (log [Dispatched depth state front] m))
          as [[transition m1]| | |] eqn:Hd; cbn [bind]; try discriminate.
        destruct (Dispatch_invariant depth state front m m1 transition HI Hd) as [HI1 Hs1].
        destruct (transition_type_ transition).
        -- destruct (PopStateAtDepth depth m1) as [m2| | |] eqn:Hp; cbn [bind];
             try discriminate.
           destruct (CreateState transition depth m2) as [target| | |] eqn:Hc;
             cbn [bind]; try discriminate.
           destruct (PushState P fuel target m2) as [m3| | |] eqn:Hpush; cbn [bind];
             try discriminate.
           apply IHd.
           apply (transition_invariant fuel depth transition m1 m2 m3 target HI1);
             try assumption.
           rewrite Hs1. exact Hlt.
        -- intro H. injection H as <-. exact HI1.
        -- apply IHq. exact HI1.
      * cbv zeta. destruct (ABORT_WHEN_RECEIVE_UNKNOWN_EVENT P); [discriminate|].
        intro H. injection H as <-. apply Inv_log; [reflexivity | exact HI].
    + intros i m m' HI. rewrite ProcessDeferredEvent_from_unfold.
      destruct i as [|i]; [intro H; injection H as <-; exact HI|].
      destruct (deferred_queue_ m) as [|front dq]; [discriminate|].
      cbv zeta.
      destruct (ProcessQueueEvent_from P fuel 0
                  (set_event_queue (front :: event_queue_ m) m)) as [m2| | |] eqn:Hq;
        cbn [bind]; try discriminate.
      apply IHq in Hq; [|apply Inv_event_queue; exact HI].
      destruct (deferred_queue_ m2) as [|x dq']; [discriminate|].
      destruct (event_queue_ (set_deferred_queue dq' m2)) as [|y eq']; [discriminate|].
      apply IHd. apply Inv_event_queue, Inv_deferred_queue. exact Hq.
Qed.

Lemma drain_invariant (fuel : nat) :
  forall m m', Inv m -> drain P fuel m = Ok m' -> Inv m'.
Proof.
  induction fuel as [|fuel IH]; intros m m' HI; [discriminate|].
  simpl. destruct (event_queue_ m) as [|front q].
  - intro H. injection H as <-. exact HI.
  - unfold ProcessQueueEvent.
    destruct (ProcessQueueEvent_from P fuel 0 m) as [m1| | |] eqn:Hq; cbn [bind];
      try discriminate.
    apply (proj1 (ProcessQueueEvent_invariant fuel)) in Hq; [|exact HI].
    destruct (event_queue_ m1) as [|x eq']; [discriminate|].
    apply IH. apply Inv_event_queue. exact Hq.
Qed.

Lemma process_event_invariant (fuel : nat) (event : Event) (m m' : StateMachine) :
  Inv m -> process_event P fuel event m = Ok m' -> Inv m'.
Proof.
  unfold process_event, Clone. intro HI. apply drain_invariant.
  apply Inv_event_queue, Inv_next_clone. exact HI.
Qed.

End Invariant.

(** ** The event queue across a dispatch *)

Section Queues.

Variable P : Program.

Lemma PopStateAtDepth_in_range (depth : nat) (m m' : StateMachine) :
  PopStateAtDepth depth m = Ok m' ->
  depth < length (state_stack_ m) /\
  m' = set_state_stack (firstn depth (state_stack_ m))
         (log (exits_down (state_stack_ m) depth) m).
Proof.
  destruct (Nat.lt_ge_cases depth (length (state_stack_ m))) as [Hlt|Hge].
  - rewrite PopStateAtDepth_spec by exact Hlt. intro H. injection H as <-.
    split; [exact Hlt | reflexivity].
  - rewrite PopStateAtDepth_out_of_range by exact Hge. discriminate.
Qed.

Lemma ProcessQueueEvent_event_queue (fuel : nat) :
  (forall depth m m', ProcessQueueEvent_from P fuel depth m = Ok m' ->
     event_queue_ m' = event_queue_ m) /\
  (forall i m m', ProcessDeferredEvent_from P fuel i m = Ok m' ->
     event_queue_ m' = event_queue_ m).
Proof.
  induction fuel as [|fuel [IHq IHd]].
  - split; intros; discriminate.
  - split.
    + intros depth m m'. rewrite ProcessQueueEvent_from_unfold.
      destruct (depth <? length (state_stack_ m)).
      * destruct (GetStateAtDepth depth m) as [state| | |]; cbn [bind]; try discriminate.
        destruct (event_queue_ m) as [|front q] eqn:Eq; [discriminate|].
        destruct (Dispatch P state front (log [Dispatched depth state front] m))
          as [[transition m1]| | |] eqn:Hd; cbn [bind]; try discriminate.
        apply Dispatch_frame in Hd. destruct Hd as [_ [Hq1 _]]. simpl in Hq1.
        destruct (transition_type_ transition).
        -- destruct (PopStateAtDepth depth m1) as [m2| | |] eqn:Hp; cbn [bind];
             try discriminate.
           apply PopStateAtDepth_in_range in Hp. destruct Hp as [_ ->].
           destruct (CreateState transition depth _) as [target| | |]; cbn [bind];
             try discriminate.
           destruct (PushState P fuel target _) as [m3| | |] eqn:Hpush; cbn [bind];
             try discriminate.
           apply (proj1 (PushState_shape P fuel)) in Hpush.
           destruct Hpush as [n [subs [_ ->]]].
           intro H. apply IHd in H. simpl in H. congruence.
        -- intro H. injection H as <-. congruence.
        -- intro H. apply IHq in H. congruence.
      * cbv zeta. destruct (ABORT_WHEN_RECEIVE_UNKNOWN_EVENT P); [discriminate|].
        intro H. injection H as <-. reflexivity.
    + intros i m m'. rewrite ProcessDeferredEvent_from_unfold.
      destruct i as [|i]; [intro H; injection H as <-; reflexivity|].
      destruct (deferred_queue_ m) as [|front dq]; [discriminate|].
      cbv zeta.
      destruct (ProcessQueueEvent_from P fuel 0
                  (set_event_queue (front :: event_queue_ m) m)) as [m2| | |] eqn:Hq;
        cbn [bind]; try discriminate.
      apply IHq in Hq. simpl in Hq.
      destruct (deferred_queue_ m2) as [|x dq']; [discriminate|].
      cbn [event_queue_ set_deferred_queue]. rewrite Hq.
      intro H. apply IHd in H. exact H.
Qed.

Lemma drain_empties (fuel : nat) :
  forall m m', drain P fuel m = Ok m' -> event_queue_ m' = [].
Proof.
  induction fuel as [|fuel IH]; intros m m'; [discriminate|].
  simpl. destruct (event_queue_ m) as [|front q] eqn:Eq.
  - intro H. injection H as <-. exact Eq.
  - destruct (ProcessQueueEvent P fuel m) as [m1| | |]; cbn [bind]; try discriminate.
    destruct (event_queue_ m1) as [|x eq']; [discriminate|].
    apply IH.
Qed.

End Queues.

(** ** Entering and leaving, read off the trace *)

Lemma State_eqb_refl (s : State) : State_eqb s s = true.
Proof. unfold State_eqb. rewrite !Nat.eqb_refl. reflexivity. Qed.

Lemma lifecycle_other (l : list Obs) :
  forall entered, existsb is_lifecycle l = false ->
  fold_left lifecycle_step l entered = entered.
Proof.
  induction l as [|o l IH]; intros entered H; [reflexivity|].
  simpl in H. apply orb_false_iff in H. destruct H as [Ho Hl].
  simpl. rewrite IH by exact Hl.
  destruct entered, o; simpl in Ho; try discriminate; reflexivity.
Qed.

Lemma lifecycle_enters (chain : list State) :
  forall stack, fold_left lifecycle_step (map on_enter chain) (Some stack)
                = Some (stack ++ chain).
Proof.
  induction chain as [|s chain IH]; intro stack; simpl.
  - rewrite app_nil_r. reflexivity.
  - rewrite IH, <- app_assoc. reflexivity.
Qed.

Lemma lifecycle_exits (n : nat) :
  forall (stack : list State) (depth : nat),
  depth + n = length stack ->
  fold_left lifecycle_step (exits_down stack depth) (Some stack)
  = Some (firstn depth stack).
Proof.
  induction n as [|n IH]; intros stack depth Hlen.
  - rewrite Nat.add_0_r in Hlen. subst depth.
    rewrite exits_down_all, firstn_all. reflexivity.
  - destruct stack as [|x stack _] using rev_ind; [simpl in Hlen; lia|].
    rewrite length_app in Hlen. simpl in Hlen.
    rewrite exits_down_snoc by lia. simpl.
    destruct (stack ++ [x]) as [|first rest] eqn:E; [destruct stack; discriminate|].
    rewrite <- E, last_last, State_eqb_refl, removelast_last.
    rewrite IH by lia.
    rewrite firstn_app. replace (depth - length stack) with 0 by lia.
    simpl. rewrite app_nil_r. reflexivity.
Qed.

Lemma alive_transition (tr : list Obs) (stack chain : list State) (depth : nat) :
  alive tr = Some stack ->
  depth <= length stack ->
  alive (tr ++ exits_down stack depth ++ map on_enter chain)
  = Some (firstn depth stack ++ chain).
Proof.
  intros Ha Hd. unfold alive in *.
  rewrite !fold_left_app, Ha.
  rewrite (lifecycle_exits (length stack - depth)) by lia.
  apply lifecycle_enters.
Qed.

(** ** Recorded depths *)

Lemma depth_zero_or_index_transition (stack : list State) (depth : nat)
    (T : StateTypeInfo) (subs : list StateTypeInfo) :
  depth_zero_or_index stack ->
  depth <= length stack ->
  depth_zero_or_index (firstn depth stack ++ pushed_chain (mkState T depth) subs).
Proof.
  intros Hinv Hd i s Hnth.
  assert (Hlen : length (firstn depth stack) = depth) by (rewrite length_firstn; lia).
  destruct (Nat.lt_ge_cases i depth) as [Hlt|Hge].
  - rewrite nth_error_app1 in Hnth by lia.
    rewrite nth_error_firstn in Hnth.
    rewrite (proj2 (Nat.ltb_lt _ _) Hlt) in Hnth.
    apply (Hinv i s Hnth).
  - rewrite nth_error_app2 in Hnth by lia. rewrite Hlen in Hnth.
    unfold pushed_chain in Hnth.
    destruct (i - depth) as [|j] eqn:Ej; simpl in Hnth.
    + injection Hnth as <-. right. simpl. lia.
    + rewrite nth_error_map in Hnth.
      destruct (nth_error subs j); [|discriminate].
      injection Hnth as <-. left. reflexivity.
Qed.

(** ** A dispatch, by the reaction of the first state that finds the kind *)

Lemma ProcessQueueEvent_reaction (P : Program) (fuel : nat) (m : StateMachine)
    (front : EventPtr) (q : list EventPtr) (k : nat) (state : State) :
  event_queue_ m = front :: q ->
  nth_error (state_stack_ m) k = Some state ->
  (forall j sj, j < k -> nth_error (state_stack_ m) j = Some sj ->
     ~ In (event_type (pointee front)) (searched P sj)) ->
  In (event_type (pointee front)) (searched P state) ->
  ProcessQueueEvent P (S k + fuel) m =
  (r <- call_react P state (event_type (pointee front)) front
          (log (consulted (state_stack_ m) front (S k)) m) ;;
   let (transition, m1) := r in
   match transition_type_ transition with
   | End => ProcessQueueEvent_from P fuel (S k) m1
   | No => Ok m1
   | Sibling =>
       m2 <- PopStateAtDepth k m1 ;;
       target_state <- CreateState transition k m2 ;;
       m3 <- PushState P fuel target_state m2 ;;
       ProcessDeferredEvent P fuel m3
   end).
Proof.
  intros Hq Hnth Hlow Hfound.
  assert (Hk : k < length (state_stack_ m)).
  { apply nth_error_Some. rewrite Hnth. discriminate. }
  unfold ProcessQueueEvent.
  replace (S k + fuel) with (k + S fuel) by lia.
  rewrite (ProcessQueueEvent_scan P front q k (S fuel) m Hq (Nat.lt_le_incl _ _ Hk)).
  - rewrite ProcessQueueEvent_from_unfold. cbn [state_stack_ log event_queue_].
    rewrite (proj2 (Nat.ltb_lt _ _) Hk).
    rewrite (GetStateAtDepth_nth k (log (consulted (state_stack_ m) front k) m) _ Hnth).
    cbn [bind]. rewrite Hq.
    rewrite (Dispatch_found P state front _ Hfound).
    rewrite log_log, consulted_S, (nth_error_nth _ _ _ Hnth). reflexivity.
  - intros j sj mj Hj Hsj. apply Dispatch_not_found. apply (Hlow j sj Hj Hsj).
Qed.

(** * Further properties, one by one *)

(** X1. stop never fails: on every machine it exits the states leaf first,
    returns with an empty stack and passes its final assertion.  It touches
    neither queue (events deferred before the stop stay deferred), nor the
    owner, nor the initial transition.  A second stop, and the destructor
    after a stop, find nothing to do. *)
Theorem X1_stop_never_fails (m : StateMachine) :
  exists m',
    stop m = Ok m' /\
    state_stack_ m' = [] /\
    trace m' = trace m ++ exits_down (state_stack_ m) 0 /\
    event_queue_ m' = event_queue_ m /\
    deferred_queue_ m' = deferred_queue_ m /\
    owner m' = owner m /\
    initial_transition_ m' = initial_transition_ m /\
    stop m' = Ok m' /\
    StateMachine_destructor m' = Ok m'.
Proof.
  eexists. split; [apply stop_spec|].
  repeat (split; [reflexivity|]).
  unfold StateMachine_destructor. rewrite stop_spec. cbn [state_stack_ set_state_stack log].
  unfold exits_down, indices_down. simpl. rewrite log_nil. split; reflexivity.
Qed.

(** X2. PopStateAtDepth(depth) returns exactly when depth is below the size
    of the stack; with any other depth (in particular on an empty stack) its
    first assertion fails and the machine is as it was.  GetStateAtDepth
    likewise returns the state at an index below the size and fails its
    assertion otherwise, and PopState fails its assertion on an empty
    stack. *)
Theorem X2_depth_out_of_range_asserts (depth : nat) (m : StateMachine) :
  ((exists m', PopStateAtDepth depth m = Ok m') <-> depth < length (state_stack_ m)) /\
  (length (state_stack_ m) <= depth -> PopStateAtDepth depth m = AssertFail m) /\
  ((exists state, GetStateAtDepth depth m = Ok state) <-> depth < length (state_stack_ m)) /\
  (length (state_stack_ m) <= depth -> GetStateAtDepth depth m = AssertFail m) /\
  (state_stack_ m = [] -> PopState m = AssertFail m).
Proof.
  split; [|split; [|split; [|split]]].
  - split.
    + intros [m' H]. apply PopStateAtDepth_in_range in H. apply H.
    + intro H. eexists. apply PopStateAtDepth_spec. exact H.
  - apply PopStateAtDepth_out_of_range.
  - unfold GetStateAtDepth. split.
    + intros [state H]. apply nth_error_Some. intro Hn. rewrite Hn in H. discriminate.
    + intro H. apply nth_error_Some in H.
      destruct (nth_error (state_stack_ m) depth) as [state|]; [|congruence].
      exists state. reflexivity.
  - intro H. unfold GetStateAtDepth. apply nth_error_None in H. rewrite H. reflexivity.
  - intro H. unfold PopState. rewrite H. reflexivity.
Qed.

(** X3. Whenever PushState returns, it has only appended to the stack: the
    pushed state followed by one new instance, created with depth 0, for each
    initial substate down the chain of InitType, which is then finite; the
    states are entered in that order and nothing else of the machine has
    changed. *)
Theorem X3_push_only_appends (P : Program) (fuel : nat) (state : State)
    (m m' : StateMachine) :
  PushState P fuel state m = Ok m' ->
  exists n subs,
    cascade P n (GetType state) = Some subs /\
    m' = log (map on_enter (pushed_chain state subs))
           (set_state_stack (state_stack_ m ++ pushed_chain state subs) m).
Proof.
  intro H.
  destruct (proj1 (PushState_shape P fuel) state m m' H) as [n [subs [Hc Hm]]].
  exists n, subs. split; [exact Hc | exact Hm].
Qed.

Lemma X3_push_only_appends_witness :
  exists n subs,
    cascade Test.program n Test.First = Some subs /\
    log [on_enter (mkState Test.First 0); on_enter (mkState Test.Second 0)]
      (set_state_stack [mkState Test.First 0; mkState Test.Second 0] new_StateMachine)
    = log (map on_enter (pushed_chain (mkState Test.First 0) subs))
        (set_state_stack (state_stack_ new_StateMachine
                          ++ pushed_chain (mkState Test.First 0) subs) new_StateMachine).
Proof.
  apply (X3_push_only_appends Test.program 3 (mkState Test.First 0) new_StateMachine).
  reflexivity.
Defined.

(** X4. When the chain of initial substates below a state never reaches a
    type that names itself (a cycle of InitType), PushState of that state
    does not return: each push calls the next, whatever the fuel. *)
Theorem X4_cyclic_initial_states_never_return (P : Program) (state : State)
    (m : StateMachine) :
  (forall n, cascade P n (GetType state) = None) ->
  forall fuel, PushState P fuel state m = OutOfFuel.
Proof.
  intros Hcycle fuel.
  destruct (proj1 (PushState_no_failure P fuel) state m) as [H|[m' H]]; [exact H|].
  apply (proj1 (PushState_shape P fuel)) in H. destruct H as [n [subs [Hc _]]].
  rewrite Hcycle in Hc. discriminate.
Qed.

Lemma X4_cyclic_initial_states_never_return_witness :
  PushState Cycle.program 1000 (mkState Cycle.A 0) new_StateMachine = OutOfFuel.
Proof.
  refine (X4_cyclic_initial_states_never_return Cycle.program (mkState Cycle.A 0)
            new_StateMachine _ 1000).
  assert (H : forall n, cascade Cycle.program n Cycle.A = None /\
                        cascade Cycle.program n Cycle.B = None).
  { induction n as [|n [IHa IHb]]; [split; reflexivity|].
    split; simpl; [rewrite IHb | rewrite IHa]; reflexivity. }
  intro n. apply (proj1 (H n)).
Defined.

(** X5. A state never reacts to an event kind that is not in its reactions
    list, whatever the list looks like: Dispatch returns EndTransition, no
    react overload runs and the machine is unchanged. *)
Theorem X5_unclaimed_kind_is_not_handled (P : Program) (s : State) (e : EventPtr)
    (m : StateMachine) :
  ~ In (event_type (pointee e)) (reactions P (GetType s)) ->
  Dispatch P s e m = Ok (EndTransition, m).
Proof.
  intro Hnot. unfold Dispatch.
  apply DispatchImpl_unclaimed. exact Hnot.
Qed.

Lemma X5_unclaimed_kind_is_not_handled_witness :
  Dispatch Test.program (mkState Test.Third 1) (mkEventPtr 0 (mkEvent Test.event_open 0))
    new_StateMachine = Ok (EndTransition, new_StateMachine).
Proof.
  apply (X5_unclaimed_kind_is_not_handled Test.program (mkState Test.Third 1)).
  simpl. intros [H|[]]. discriminate.
Defined.

(** X6. A state finds an event kind when the kind stands in its reactions
    list no later than the first occurrence of the list's last kind (in a
    list that names no kind twice: anywhere in the list).  When the first
    state, root first, that finds the kind of the front event has no react
    overload for it, the default react of state_base runs: the engine writes
    the diagnostic and, with ABORT_WHEN_AN_EVENT_NOT_HANDLE set, fails the
    assertion; without it the event counts as handled with no transition: no
    deeper state is asked and stack and queues stay as they are. *)
Theorem X6_unimplemented_react_is_diagnosed (P : Program) (fuel : nat) (m : StateMachine)
    (front : EventPtr) (q : list EventPtr) (k : nat) (state : State) :
  event_queue_ m = front :: q ->
  nth_error (state_stack_ m) k = Some state ->
  (forall j sj, j < k -> nth_error (state_stack_ m) j = Some sj ->
     ~ In (event_type (pointee front)) (searched P sj)) ->
  In (event_type (pointee front)) (searched P state) ->
  react P (GetType state) (event_type (pointee front)) (pointee front) = unimplemented ->
  ProcessQueueEvent P (S k + fuel) m =
  if ABORT_WHEN_AN_EVENT_NOT_HANDLE P
  then AssertFail (log (consulted (state_stack_ m) front (S k)
                        ++ [Reacted state (event_type (pointee front)) front;
                            Diag_event_not_handled front]) m)
  else Ok (log (consulted (state_stack_ m) front (S k)
                ++ [Reacted state (event_type (pointee front)) front;
                    Diag_event_not_handled front]) m).
Proof.
  intros Hq Hnth Hlow Hfound Hreact.
  rewrite (ProcessQueueEvent_reaction P fuel m front q k state Hq Hnth Hlow Hfound).
  unfold call_react. rewrite Hreact.
  destruct (ABORT_WHEN_AN_EVENT_NOT_HANDLE P); cbn [bind transition_type_ NoTransition];
    rewrite !log_log; reflexivity.
Qed.

Lemma X6_unimplemented_react_is_diagnosed_witness :
  let ping0 := mkEventPtr 0 (mkEvent Bare.ping 0) in
  let m := mkStateMachine None (SiblingTransition 1) [mkState 1 0] [ping0] [] 1 [] in
  ProcessQueueEvent Bare.program 2 m =
  Ok (log [Dispatched 0 (mkState 1 0) ping0; Reacted (mkState 1 0) Bare.ping ping0;
           Diag_event_not_handled ping0] m).
Proof.
  intros ping0 m.
  apply (X6_unimplemented_react_is_diagnosed Bare.program 1 m ping0 [] 0 (mkState 1 0)).
  - reflexivity.
  - reflexivity.
  - intros j sj Hj. lia.
  - simpl. left. reflexivity.
  - reflexivity.
Defined.

(** X7. A state finds an event kind when the kind stands in its reactions
    list no later than the first occurrence of the list's last kind (in a
    list that names no kind twice: anywhere in the list).  When the first
    state, root first, that finds the kind of the front event reacts with
    finish() or discard(), the dispatch returns at once and has changed
    nothing but the log: the state stack, the event queue and the deferred
    queue are as before, and the two results cannot be told apart. *)
Theorem X7_finish_and_discard_change_nothing (P : Program) (fuel : nat) (m : StateMachine)
    (front : EventPtr) (q : list EventPtr) (k : nat) (state : State) :
  event_queue_ m = front :: q ->
  nth_error (state_stack_ m) k = Some state ->
  (forall j sj, j < k -> nth_error (state_stack_ m) j = Some sj ->
     ~ In (event_type (pointee front)) (searched P sj)) ->
  In (event_type (pointee front)) (searched P state) ->
  react P (GetType state) (event_type (pointee front)) (pointee front) = finish \/
  react P (GetType state) (event_type (pointee front)) (pointee front) = discard ->
  ProcessQueueEvent P (S k + fuel) m =
  Ok (log (consulted (state_stack_ m) front (S k)
           ++ [Reacted state (event_type (pointee front)) front]) m).
Proof.
  intros Hq Hnth Hlow Hfound Hreact.
  rewrite (ProcessQueueEvent_reaction P fuel m front q k state Hq Hnth Hlow Hfound).
  unfold call_react.
  destruct Hreact as [-> | ->]; cbn [bind transition_type_ NoTransition];
    rewrite log_log; reflexivity.
Qed.

Lemma X7_finish_and_discard_change_nothing_witness :
  let close0 := mkEventPtr 0 (mkEvent Test.event_close 0) in
  let m := mkStateMachine (Some 7) (SiblingTransition Test.First)
             [mkState Test.First 0; mkState Test.Third 1] [close0] [close0] 2 [] in
  ProcessQueueEvent Test.program 2 m =
  Ok (log [Dispatched 0 (mkState Test.First 0) close0;
           Dispatched 1 (mkState Test.Third 1) close0;
           Reacted (mkState Test.Third 1) Test.event_close close0] m).
Proof.
  intros close0 m.
  apply (X7_finish_and_discard_change_nothing Test.program 0 m close0 [] 1
           (mkState Test.Third 1)).
  - reflexivity.
  - reflexivity.
  - intros j sj Hj Hsj. assert (j = 0) as -> by lia. injection Hsj as <-.
    simpl. intros [H|[]]. discriminate.
  - simpl. left. reflexivity.
  - left. reflexivity.
Defined.

(** X8. A state finds an event kind when the kind stands in its reactions
    list no later than the first occurrence of the list's last kind (in a
    list that names no kind twice: anywhere in the list).  When the first
    state, root first, that finds the kind of the front event reacts with
    defer(), the dispatch returns with that front clone appended to the
    deferred queue and nothing else changed: no transition, no replay, the
    event queue still holding the event for the caller to pop. *)
Theorem X8_deferred_event_is_kept (P : Program) (fuel : nat) (m : StateMachine)
    (front : EventPtr) (q : list EventPtr) (k : nat) (state : State) :
  event_queue_ m = front :: q ->
  nth_error (state_stack_ m) k = Some state ->
  (forall j sj, j < k -> nth_error (state_stack_ m) j = Some sj ->
     ~ In (event_type (pointee front)) (searched P sj)) ->
  In (event_type (pointee front)) (searched P state) ->
  react P (GetType state) (event_type (pointee front)) (pointee front) = defer ->
  ProcessQueueEvent P (S k + fuel) m =
  Ok (set_deferred_queue (deferred_queue_ m ++ [front])
        (log (consulted (state_stack_ m) front (S k)
              ++ [Reacted state (event_type (pointee front)) front]) m)).
Proof.
  intros Hq Hnth Hlow Hfound Hreact.
  rewrite (ProcessQueueEvent_reaction P fuel m front q k state Hq Hnth Hlow Hfound).
  unfold call_react, State_defer, DeferEvent. rewrite Hreact.
  cbn [event_queue_ log]. rewrite Hq.
  cbn [bind transition_type_ NoTransition deferred_queue_ log].
  rewrite log_log. reflexivity.
Qed.

Lemma X8_deferred_event_is_kept_witness :
  let close0 := mkEventPtr 0 (mkEvent Test.event_close 0) in
  let m := mkStateMachine (Some 7) (SiblingTransition Test.First)
             [mkState Test.First 0; mkState Test.Second 0] [close0] [] 1 [] in
  ProcessQueueEvent Test.program 2 m =
  Ok (set_deferred_queue [close0]
        (log [Dispatched 0 (mkState Test.First 0) close0;
              Dispatched 1 (mkState Test.Second 0) close0;
              Reacted (mkState Test.Second 0) Test.event_close close0] m)).
Proof.
  intros close0 m.
  apply (X8_deferred_event_is_kept Test.program 0 m close0 [] 1 (mkState Test.Second 0)).
  - reflexivity.
  - reflexivity.
  - intros j sj Hj Hsj. assert (j = 0) as -> by lia. injection Hsj as <-.
    simpl. intros [H|[]]. discriminate.
  - simpl. right. left. reflexivity.
  - reflexivity.
Defined.

(** X9. A dispatch that returns leaves the event queue exactly as it found
    it: every replay inside it pushes one event to the front and pops one
    again, however the replays nest. *)
Theorem X9_dispatch_restores_event_queue (P : Program) (fuel : nat) (m m' : StateMachine) :
  ProcessQueueEvent P fuel m = Ok m' ->
  event_queue_ m' = event_queue_ m.
Proof.
  unfold ProcessQueueEvent. intro H.
  apply (proj1 (ProcessQueueEvent_event_queue P fuel) 0 m m' H).
Qed.

Lemma X9_dispatch_restores_event_queue_witness :
  let open1 := mkEventPtr 1 (mkEvent Test.event_open 0) in
  let close0 := mkEventPtr 0 (mkEvent Test.event_close 0) in
  let m := mkStateMachine (Some 7) (SiblingTransition Test.First)
             [mkState Test.First 0; mkState Test.Second 0] [open1] [close0] 2 [] in
  exists m', ProcessQueueEvent Test.program 6 m = Ok m' /\
             event_queue_ m' = [open1].
Proof.
  intros open1 close0 m.
  assert (H : exists m', ProcessQueueEvent Test.program 6 m = Ok m').
  { vm_compute. eexists. reflexivity. }
  destruct H as [m' H]. exists m'. split; [exact H|].
  apply (X9_dispatch_restores_event_queue Test.program 6 m m' H).
Defined.

(** X10. On a machine whose event queue is empty, process_event is one
    dispatch of the clone of its argument followed by the removal of the
    clone: the drain loop runs once, and process_event returns with the event
    queue empty again. *)
Theorem X10_process_event_is_one_dispatch (P : Program) (fuel : nat) (event : Event)
    (m : StateMachine) :
  event_queue_ m = [] ->
  process_event P (S (S fuel)) event m =
  (m1 <- ProcessQueueEvent P (S fuel)
           (set_event_queue [mkEventPtr (next_clone m) event]
              (set_next_clone (S (next_clone m)) m)) ;;
   Ok (set_event_queue [] m1)).
Proof.
  intro Hq. unfold process_event, Clone.
  cbn [event_queue_ set_next_clone]. rewrite Hq. cbn [app].
  cbn [drain event_queue_ set_event_queue].
  destruct (ProcessQueueEvent P (S fuel)
              (set_event_queue [mkEventPtr (next_clone m) event]
                 (set_next_clone (S (next_clone m)) m))) as [m1| | |] eqn:Hpqe;
    cbn [bind]; try reflexivity.
  apply (proj1 (ProcessQueueEvent_event_queue P (S fuel)) 0) in Hpqe.
  cbn [event_queue_ set_event_queue] in Hpqe. rewrite Hpqe.
  reflexivity.
Qed.

Lemma X10_process_event_is_one_dispatch_witness :
  let m := mkStateMachine (Some 7) (SiblingTransition Test.First)
             [mkState Test.First 0; mkState Test.Second 0] [] [] 0 [] in
  process_event Test.program 3 (mkEvent Test.event_close 0) m =
  (m1 <- ProcessQueueEvent Test.program 2
           (set_event_queue [mkEventPtr 0 (mkEvent Test.event_close 0)]
              (set_next_clone 1 m)) ;;
   Ok (set_event_queue [] m1)).
Proof.
  intro m.
  apply (X10_process_event_is_one_dispatch Test.program 1 (mkEvent Test.event_close 0) m).
  reflexivity.
Defined.

Lemma initialize_shape (P : Program) (fuel : nat) (InitialStateType : StateTypeInfo)
    (o : option nat) (m m' : StateMachine) :
  initialize P fuel InitialStateType o m = Ok m' ->
  state_stack_ m = [] /\
  exists n subs,
    cascade P n InitialStateType = Some subs /\
    m' = log (map on_enter (pushed_chain (mkState InitialStateType 0) subs))
           (set_state_stack (pushed_chain (mkState InitialStateType 0) subs)
              (set_owner o (set_initial_transition (SiblingTransition InitialStateType) m))).
Proof.
  unfold initialize.
  destruct (negb (IsNo (initial_transition_ m))); [discriminate|].
  destruct (state_stack_ m) as [|x l] eqn:Hs; [|discriminate].
  intro H. split; [reflexivity|].
  apply (proj2 (PushState_shape P fuel)) in H.
  destruct H as [n [subs [T [HT [Hc ->]]]]].
  cbn in HT. injection HT as <-.
  exists n, subs. split; [exact Hc|].
  cbn [state_stack_ set_owner set_initial_transition]. rewrite Hs. reflexivity.
Qed.

Lemma process_event_owner (P : Program) (fuel : nat) (event : Event) (m m' : StateMachine) :
  process_event P fuel event m = Ok m' -> owner_ m' = owner_ m.
Proof.
  apply (process_event_invariant P (fun x => owner_ x = owner_ m)); try reflexivity;
    intros; assumption.
Qed.

(** X11. The owner pointer given to initialize is what owner() returns for
    the rest of the machine's life: no call of process_event or stop that
    returns changes it. *)
Theorem X11_owner_is_kept (P : Program) (fuel : nat) (InitialStateType : StateTypeInfo)
    (o : option nat) (m m0 m' : StateMachine) :
  initialize P fuel InitialStateType o m = Ok m0 ->
  after_calls P m0 m' ->
  owner m' = o.
Proof.
  intros Hinit Hafter. unfold owner.
  apply initialize_shape in Hinit. destruct Hinit as [_ [n [subs [_ Hm0]]]].
  assert (H0 : owner_ m0 = o) by (rewrite Hm0; reflexivity).
  clear Hm0. induction Hafter as [|m1 m2 f ev _ IH H|m1 m2 _ IH H].
  - exact H0.
  - rewrite (process_event_owner P f ev m1 m2 H). exact IH.
  - rewrite stop_spec in H. injection H as <-. exact IH.
Qed.

Lemma X11_owner_is_kept_witness :
  let m0 := mkStateMachine (Some 7) (SiblingTransition Test.First)
              [mkState Test.First 0; mkState Test.Second 0] [] [] 0
              [on_enter (mkState Test.First 0); on_enter (mkState Test.Second 0)] in
  let m1 := set_state_stack [] (log (exits_down (state_stack_ m0) 0) m0) in
  owner m1 = Some 7.
Proof.
  intros m0 m1.
  apply (X11_owner_is_kept Test.program 4 Test.First (Some 7) new_StateMachine m0 m1).
  - reflexivity.
  - apply (after_stop Test.program m0 m0 m1 (after_none Test.program m0)).
    reflexivity.
Defined.

(** X12. process_event never empties the state stack: a transition at depth
    d pops down to d and pushes at least the target, so a machine with active
    states still has at least one when process_event returns. *)
Theorem X12_stack_stays_non_empty (P : Program) (fuel : nat) (event : Event)
    (m m' : StateMachine) :
  state_stack_ m <> [] ->
  process_event P fuel event m = Ok m' ->
  state_stack_ m' <> [].
Proof.
  intros Hne Hpe.
  refine (process_event_invariant P (fun x => state_stack_ x <> []) _ _ _ _ _
            fuel event m m' Hne Hpe);
    try (intros; assumption).
  intros x depth T subs _ _. cbn [state_stack_ set_state_stack log].
  unfold pushed_chain. intro H. apply app_eq_nil in H. destruct H as [_ H]. discriminate.
Qed.

Lemma X12_stack_stays_non_empty_witness :
  let m := mkStateMachine (Some 7) (SiblingTransition Test.First)
             [mkState Test.First 0; mkState Test.Second 0] [] [] 0 [] in
  exists m', process_event Test.program 6 (mkEvent Test.event_open 0) m = Ok m' /\
             state_stack_ m' <> [].
Proof.
  intro m.
  assert (H : exists m', process_event Test.program 6 (mkEvent Test.event_open 0) m = Ok m').
  { vm_compute. eexists. reflexivity. }
  destruct H as [m' H]. exists m'. split; [exact H|].
  apply (X12_stack_stays_non_empty Test.program 6 (mkEvent Test.event_open 0) m m');
    [discriminate | exact H].
Defined.

(** X13. on_enter and on_exit are called in stack discipline: in every
    machine a program can bring about, reading the trace from the start (an
    on_enter adds a state at the leaf end, an on_exit names the state at the
    leaf end and removes it) never meets an on_exit out of place and ends
    with exactly the state stack.  So no state is exited before a state
    entered after it, none is exited twice, and the states on the stack are
    those entered and not yet exited. *)
Theorem X13_enter_and_exit_in_stack_discipline (P : Program) (m : StateMachine) :
  reachable P m ->
  alive (trace m) = Some (state_stack_ m).
Proof.
  induction 1 as [|m m' fuel T o _ IH H|m m' fuel event _ IH H|m m' _ IH H].
  - reflexivity.
  - apply initialize_shape in H. destruct H as [Hs [n [subs [_ ->]]]].
    cbn [trace state_stack_ log set_state_stack set_owner set_initial_transition].
    rewrite Hs in IH. unfold alive in *. rewrite fold_left_app, IH.
    apply lifecycle_enters.
  - refine (process_event_invariant P (fun x => alive (trace x) = Some (state_stack_ x))
              _ _ _ _ _ fuel event m m' IH H); try (intros; assumption).
    + intros x l Hl Hx. cbn [trace state_stack_ log]. unfold alive in *.
      rewrite fold_left_app, Hx. apply lifecycle_other. exact Hl.
    + intros x depth T subs Hx Hd. cbn [trace state_stack_ log set_state_stack].
      apply alive_transition; [exact Hx | lia].
  - rewrite stop_spec in H. injection H as <-.
    cbn [trace state_stack_ log set_state_stack]. unfold alive in *.
    rewrite fold_left_app, IH.
    apply (lifecycle_exits (length (state_stack_ m)) (state_stack_ m) 0). reflexivity.
Qed.

Lemma X13_enter_and_exit_in_stack_discipline_witness :
  let close0 := mkEventPtr 0 (mkEvent Test.event_close 0) in
  let m0 := mkStateMachine (Some 7) (SiblingTransition Test.First)
              [mkState Test.First 0; mkState Test.Second 0] [] [] 0
              [on_enter (mkState Test.First 0); on_enter (mkState Test.Second 0)] in
  let m1 := mkStateMachine (Some 7) (SiblingTransition Test.First)
              [mkState Test.First 0; mkState Test.Second 0] [] [close0] 1
              [on_enter (mkState Test.First 0); on_enter (mkState Test.Second 0);
               Dispatched 0 (mkState Test.First 0) close0;
               Dispatched 1 (mkState Test.Second 0) close0;
               Reacted (mkState Test.Second 0) Test.event_close close0] in
  alive (trace m1) = Some (state_stack_ m1).
Proof.
  intros close0 m0 m1.
  apply (X13_enter_and_exit_in_stack_discipline Test.program m1).
  apply (reach_process_event Test.program m0 m1 4 (mkEvent Test.event_close 0)).
  - apply (reach_initialize Test.program new_StateMachine m0 4 Test.First (Some 7)).
    + apply reach_new.
    + reflexivity.
  - reflexivity.
Defined.

(** X14. In every machine a program can bring about, each state on the
    stack records as depth either its own index or 0, and the root records
    0: the target of a transition is created with the depth it is pushed at,
    everything pushed by CreateAndPushInitialState with 0. *)
Theorem X14_recorded_depth_is_index_or_zero (P : Program) (m : StateMachine) :
  reachable P m ->
  depth_zero_or_index (state_stack_ m) /\
  (forall root, nth_error (state_stack_ m) 0 = Some root -> stack_depth_ root = 0).
Proof.
  intro Hreach.
  assert (Hinv : depth_zero_or_index (state_stack_ m)).
  { induction Hreach as [|m m' fuel T o _ IH H|m m' fuel event _ IH H|m m' _ IH H].
    - intros i s Hnth. destruct i; discriminate.
    - apply initialize_shape in H. destruct H as [Hs [n [subs [_ ->]]]].
      cbn [state_stack_ log set_state_stack].
      apply (depth_zero_or_index_transition [] 0 T subs); [|simpl; lia].
      intros i s Hnth. destruct i; discriminate.
    - refine (process_event_invariant P (fun x => depth_zero_or_index (state_stack_ x))
                _ _ _ _ _ fuel event m m' IH H); try (intros; assumption).
      intros x depth T subs Hx Hd. cbn [state_stack_ log set_state_stack].
      apply depth_zero_or_index_transition; [exact Hx | lia].
    - rewrite stop_spec in H. injection H as <-.
      intros i s Hnth. destruct i; discriminate. }
  split; [exact Hinv|].
  intros root Hroot. destruct (Hinv 0 root Hroot) as [H0|H0]; exact H0.
Qed.

Lemma X14_recorded_depth_is_index_or_zero_witness :
  let m0 := mkStateMachine (Some 7) (SiblingTransition Test.First)
              [mkState Test.First 0; mkState Test.Second 0] [] [] 0
              [on_enter (mkState Test.First 0); on_enter (mkState Test.Second 0)] in
  depth_zero_or_index (state_stack_ m0) /\
  (forall root, nth_error (state_stack_ m0) 0 = Some root -> stack_depth_ root = 0).
Proof.
  intro m0.
  apply (X14_recorded_depth_is_index_or_zero Test.program m0).
  apply (reach_initialize Test.program new_StateMachine m0 4 Test.First (Some 7)).
  - apply reach_new.
  - reflexivity.
Defined.

(** X15. A state finds an event kind when the kind stands in its reactions
    list no later than the first occurrence of the list's last kind (in a
    list that names no kind twice: anywhere in the list).  process_event of
    an event that the first state, root first, that finds its kind, at depth
    d, answers with transit<T>(), on a machine with both queues empty: the
    states at the depths 0..d are asked, the states at the indices >= d are
    exited leaf first, T is created at depth d and pushed with its chain of
    initial substates, and process_event returns with that stack, both
    queues empty again and nothing replayed. *)
Theorem X15_transition_with_nothing_deferred (P : Program) (fuel n : nat) (event : Event)
    (m : StateMachine) (d : nat) (state : State)
    (T : StateTypeInfo) (subs : list StateTypeInfo) :
  event_queue_ m = [] ->
  deferred_queue_ m = [] ->
  nth_error (state_stack_ m) d = Some state ->
  (forall j sj, j < d -> nth_error (state_stack_ m) j = Some sj ->
     ~ In (event_type event) (searched P sj)) ->
  In (event_type event) (searched P state) ->
  react P (GetType state) (event_type event) event = transit T ->
  cascade P n T = Some subs ->
  d + 2 * n + 1 <= fuel ->
  process_event P fuel event m =
  Ok (log (consulted (state_stack_ m) (mkEventPtr (next_clone m) event) (S d)
           ++ [Reacted state (event_type event) (mkEventPtr (next_clone m) event)]
           ++ exits_down (state_stack_ m) d
           ++ map on_enter (pushed_chain (mkState T d) subs))
        (set_state_stack (firstn d (state_stack_ m) ++ pushed_chain (mkState T d) subs)
           (set_next_clone (S (next_clone m)) m))).
Proof.
  intros Hq Hdq Hnth Hlow Hfound Hreact Hc Hf.
  pose proof (cascade_fuel P n T subs Hc) as Hn.
  assert (Hfuel : exists f1, fuel = S (S d + S f1) /\ 2 * n <= S (S f1)).
  { exists (fuel - d - 3). lia. }
  destruct Hfuel as [f1 [-> Hf1]].
  destruct m as [ow it stack events deferred nc tr].
  cbn [event_queue_ deferred_queue_ state_stack_ next_clone] in *. subst events deferred.
  assert (Hd : d < length stack).
  { apply nth_error_Some. rewrite Hnth. discriminate. }
  unfold process_event, Clone. unfold_sets.
  cbn [app drain owner_ initial_transition_ state_stack_ event_queue_
       deferred_queue_ next_clone trace].
  rewrite (ProcessQueueEvent_reaction P (S f1)
             (mkStateMachine ow it stack [mkEventPtr nc event] [] (S nc) tr)
             (mkEventPtr nc event) [] d state eq_refl Hnth Hlow Hfound).
  unfold call_react. cbn [pointee]. rewrite Hreact. unfold_sets.
  cbn [bind transition_type_ SiblingTransition owner_ initial_transition_ state_stack_
       event_queue_ deferred_queue_ next_clone trace].
  rewrite PopStateAtDepth_spec by exact Hd.
  unfold CreateState. unfold_sets.
  cbn [bind state_factory_ SiblingTransition owner_ initial_transition_ state_stack_
       event_queue_ deferred_queue_ next_clone trace].
  change (InitState (AllocateState T) d) with (mkState T d).
  rewrite (PushState_cascade P n (S f1) (mkState T d) _ subs Hc Hf1).
  unfold ProcessDeferredEvent. unfold_sets.
  cbn [bind length ProcessDeferredEvent_from owner_ initial_transition_ state_stack_
       event_queue_ deferred_queue_ next_clone trace].
  cbn [Nat.add drain owner_ initial_transition_ state_stack_
       event_queue_ deferred_queue_ next_clone trace].
  rewrite <- !app_assoc. reflexivity.
Qed.

Lemma X15_transition_with_nothing_deferred_witness :
  let open0 := mkEventPtr 0 (mkEvent Test.event_open 0) in
  let m := mkStateMachine (Some 7) (SiblingTransition Test.First)
             [mkState Test.First 0; mkState Test.Second 0] [] [] 0 [] in
  process_event Test.program 4 (mkEvent Test.event_open 0) m =
  Ok (log [Dispatched 0 (mkState Test.First 0) open0;
           Dispatched 1 (mkState Test.Second 0) open0;
           Reacted (mkState Test.Second 0) Test.event_open open0;
           on_exit (mkState Test.Second 0); on_enter (mkState Test.Third 1)]
        (set_state_stack [mkState Test.First 0; mkState Test.Third 1] (set_next_clone 1 m))).
Proof.
  intros open0 m.
  apply (X15_transition_with_nothing_deferred Test.program 4 1 (mkEvent Test.event_open 0)
           m 1 (mkState Test.Second 0) Test.Third []).
  - reflexivity.
  - reflexivity.
  - reflexivity.
  - intros j sj Hj Hsj. assert (j = 0) as -> by lia. injection Hsj as <-.
    simpl. intros [H|[]]. discriminate.
  - simpl. left. reflexivity.
  - reflexivity.
  - reflexivity.
  - simpl. lia.
Defined.

(** X16. The replay of deferred events none of which causes a transition
    (each is answered by a finish or discard): ProcessDeferredEvent dispatches
    them oldest first, one dispatch ended before the next begins, and returns
    with the deferred queue empty and the state stack and the event queue as
    they were. *)
Theorem X16_replay_is_fifo (P : Program) (stack : list State) (deferred : list EventPtr)
    (l : list Obs) (fuel : nat) (m : StateMachine) :
  quiet_replay P stack deferred l ->
  state_stack_ m = stack ->
  deferred_queue_ m = deferred ->
  length deferred + length stack + 1 <= fuel ->
  exists m',
    ProcessDeferredEvent P fuel m = Ok m' /\
    trace m' = trace m ++ l /\
    deferred_queue_ m' = [] /\
    state_stack_ m' = state_stack_ m /\
    event_queue_ m' = event_queue_ m.
Proof.
  intros Hquiet Hs Hdq Hf.
  exists (set_deferred_queue [] (log l m)).
  split; [|repeat split].
  apply (replay_fifo_without_transitions P stack deferred l Hquiet fuel m Hs Hdq Hf).
Qed.

Lemma X16_replay_is_fifo_witness :
  let close0 := mkEventPtr 0 (mkEvent Test.event_close 0) in
  let close1 := mkEventPtr 1 (mkEvent Test.event_close 5) in
  let stack := [mkState Test.First 0; mkState Test.Third 1] in
  let m := mkStateMachine (Some 7) (SiblingTransition Test.First) stack
             [mkEventPtr 2 (mkEvent Test.event_open 0)] [close0; close1] 3 [] in
  exists m',
    ProcessDeferredEvent Test.program 5 m = Ok m' /\
    trace m' = trace m ++
      (consulted stack close0 2 ++ [Reacted (mkState Test.Third 1) Test.event_close close0]
       ++ consulted stack close1 2 ++ [Reacted (mkState Test.Third 1) Test.event_close close1]
       ++ []) /\
    deferred_queue_ m' = [] /\
    state_stack_ m' = state_stack_ m /\
    event_queue_ m' = event_queue_ m.
Proof.
  intros close0 close1 stack m.
  apply (X16_replay_is_fifo Test.program stack [close0; close1]).
  - apply (quiet_cons Test.program stack close0 1 (mkState Test.Third 1) Test.event_close).
    + split; [reflexivity|]. split; [|reflexivity].
      intros j sj mj Hj Hsj. assert (j = 0) as -> by lia. injection Hsj as <-. reflexivity.
    + apply (quiet_cons Test.program stack close1 1 (mkState Test.Third 1) Test.event_close).
      * split; [reflexivity|]. split; [|reflexivity].
        intros j sj mj Hj Hsj. assert (j = 0) as -> by lia. injection Hsj as <-.
        reflexivity.
      * apply quiet_nil.
  - reflexivity.
  - reflexivity.
  - simpl. lia.
Defined.
